(** * The DAO voting adapter schema generator

    A shallow embedding of
    [contracts/dao-voting-adapter/schema/generate_full_schema.py]
    and the properties of its single pass: discovery of the response
    fragments in the working directory, loading of the three mandatory
    fragments, key derivation, composition and emission.

    What is modelled and how:
    - a Python [str] is a [string] holding its UTF-8 bytes; the script only
      searches for the ASCII needle [_response.json], and such a search gives
      the same positions on bytes and on code points;
    - a Python object produced by [json.load] is a [value]; a [dict] is an
      association list in insertion order, as CPython keeps it;
    - the working directory is an association list in the order in which
      [os.listdir] enumerates it, every entry seen through [os.stat] (links
      followed) as a regular file or a directory;
    - exceptions, the directory and the standard output are threaded by a
      small state and error monad;
    - [json.load] and [json.dump] belong to the Python library, not to the
      script: the script is written over any pair of them. *)

From Stdlib Require Import String Ascii List ZArith Bool Arith Lia Permutation.
From Stdlib Require Import SpecFloat Decimal DecimalString.
Import ListNotations.
Open Scope string_scope.
Set Warnings "-register-all".

(** ** Python strings *)

Module PyStr.

(** [s.endswith(suffix)]: some tail of [s] is [suffix]. *)
Fixpoint endswith (s suffix : string) : bool :=
  if String.eqb s suffix then true
  else match s with
       | EmptyString => false
       | String _ s' => endswith s' suffix
       end.

(** The scan of [s.split(sep)] for a non-empty [sep]: left to right, matches
    do not overlap. [skip] counts the characters of a match still to be
    passed, [cur] is the piece being accumulated. *)
Fixpoint split_from (sep : string) (skip : nat) (cur : string) (s : string)
  : list string :=
  match s with
  | EmptyString => [cur]
  | String c s' =>
      match skip with
      | S k => split_from sep k cur s'
      | O =>
          if prefix sep s
          then cur :: split_from sep (String.length sep - 1) "" s'
          else split_from sep 0 (cur ++ String c "") s'
      end
  end.

(** The double quote and the backslash, and a string between quotes. *)
Definition dquote : ascii := ascii_of_nat 34.
Definition backslash : ascii := ascii_of_nat 92.
Definition quoted (s : string) : string :=
  String dquote (s ++ String dquote "").

End PyStr.

(** ** Python objects, exceptions *)

Module Py.

Inductive value : Type :=
| VNone
| VBool (b : bool)
| VInt (n : Z)
| VFloat (x : spec_float)
| VStr (s : string)
| VList (items : list value)
| VDict (entries : list (string * value)).

Definition dict := list (string * value).

Inductive exn : Type :=
| FileNotFoundError (path : string)
| IsADirectoryError (path : string)
| JSONDecodeError (msg : string)
| KeyError (key : string)
| IndexError
| TypeError
| ValueError (msg : string)
| OtherError (msg : string).

Inductive result (A : Type) : Type :=
| Ok (a : A)
| Raise (e : exn).
Arguments Ok {A} a.
Arguments Raise {A} e.

(** [d[k]] on a dict's entries. *)
Fixpoint dict_get (d : dict) (k : string) : option value :=
  match d with
  | [] => None
  | (k', v) :: d' => if String.eqb k' k then Some v else dict_get d' k
  end.

(** [d[k] = v]: an existing key keeps its place, a new key goes last. *)
Fixpoint dict_set (d : dict) (k : string) (v : value) : dict :=
  match d with
  | [] => [(k, v)]
  | (k', v') :: d' =>
      if String.eqb k' k then (k', v) :: d' else (k', v') :: dict_set d' k v
  end.

Definition dict_keys (d : dict) : list string := map fst d.

(** [obj[k]] with a string subscript. *)
Definition getitem (obj : value) (k : string) : result value :=
  match obj with
  | VDict d => match dict_get d k with
               | Some v => Ok v
               | None => Raise (KeyError k)
               end
  | _ => Raise TypeError
  end.

(** [obj[k] = v] with a string subscript; the updated object is returned. *)
Definition setitem (obj : value) (k : string) (v : value) : result value :=
  match obj with
  | VDict d => Ok (VDict (dict_set d k v))
  | _ => Raise TypeError
  end.

(** [l[i]] on a list. *)
Definition list_getitem {A : Type} (l : list A) (i : nat) : result A :=
  match nth_error l i with
  | Some x => Ok x
  | None => Raise IndexError
  end.

(** [s.split(sep)]. *)
Definition str_split (s sep : string) : result (list string) :=
  if String.eqb sep "" then Raise (ValueError "empty separator")
  else Ok (PyStr.split_from sep 0 "" s).

End Py.
Import Py.

(** ** The working directory *)

Module FS.

Inductive node : Type :=
| File (content : string)
| Dir (children : list (string * node)).

(** The entries of a directory, in the order [os.listdir] gives them. *)
Definition directory := list (string * node).

Fixpoint lookup (d : directory) (name : string) : option node :=
  match d with
  | [] => None
  | (n, x) :: d' => if String.eqb n name then Some x else lookup d' name
  end.

Definition listdir (d : directory) : list string := map fst d.

Definition isfile (d : directory) (name : string) : bool :=
  match lookup d name with
  | Some (File _) => true
  | _ => false
  end.

(** [open(name, "r")] followed by reading the whole file. *)
Definition read (d : directory) (name : string) : result string :=
  match lookup d name with
  | Some (File c) => Ok c
  | Some (Dir _) => Raise (IsADirectoryError name)
  | None => Raise (FileNotFoundError name)
  end.

(** The file [name] is given the content [c]: in place when the entry
    exists, as a new last entry otherwise. *)
Fixpoint store (d : directory) (name : string) (c : string) : directory :=
  match d with
  | [] => [(name, File c)]
  | (n, x) :: d' =>
      if String.eqb n name then (n, File c) :: d' else (n, x) :: store d' name c
  end.

(** [open(name, "w")]: the file is created or truncated. The modelled
    directory has no permissions: of the ways the call can fail, only the
    name being a directory is represented. *)
Definition create (d : directory) (name : string) : result directory :=
  match lookup d name with
  | Some (Dir _) => Raise (IsADirectoryError name)
  | _ => Ok (store d name "")
  end.

End FS.
Import FS.

(** ** The state and error monad of a run *)

(** One argument of a [print] call. *)
Inductive printed : Type :=
| PStr (s : string)
| PStrList (l : list string).

Record world : Type := World {
  cwd : directory;
  stdout : list (list printed)
}.

Definition M (A : Type) : Type := world -> result A * world.

Definition ret {A : Type} (a : A) : M A := fun w => (Ok a, w).

Definition bind {A B : Type} (m : M A) (k : A -> M B) : M B :=
  fun w => match m w with
           | (Ok a, w') => k a w'
           | (Raise e, w') => (Raise e, w')
           end.

Definition lift {A : Type} (r : result A) : M A := fun w => (r, w).

Declare Scope py_scope.
Delimit Scope py_scope with py.
Notation "x <- m ;; k" := (bind m (fun x => k))
  (at level 61, m at next level, right associativity) : py_scope.
Notation "m ;; k" := (bind m (fun _ => k))
  (at level 61, right associativity) : py_scope.
Open Scope py_scope.

(** [for x in l: acc = body(acc, x)]. *)
Fixpoint for_each {A S : Type} (l : list A) (acc : S) (body : S -> A -> M S)
  : M S :=
  match l with
  | [] => ret acc
  | x :: l' => acc' <- body acc x ;; for_each l' acc' body
  end.

(** [[x for x in l if p(x)]]. *)
Fixpoint comprehension {A : Type} (l : list A) (p : A -> M bool) : M (list A) :=
  match l with
  | [] => ret []
  | x :: l' =>
      b <- p x ;;
      rest <- comprehension l' p ;;
      ret (if b then x :: rest else rest)
  end.

Definition print (args : list printed) : M unit :=
  fun w => (Ok tt, World (cwd w) (stdout w ++ [args])%list).

Definition os_listdir : M (list string) :=
  fun w => (Ok (listdir (cwd w)), w).

Definition os_path_isfile (name : string) : M bool :=
  fun w => (Ok (isfile (cwd w) name), w).

(** [with open(name, "r") as f:] and what [json.load(f)] reads from [f]. *)
Definition open_r (name : string) : M string :=
  fun w => (read (cwd w) name, w).

(** [with open(name, "w") as f:]; the handle is the name. *)
Definition open_w (name : string) : M string :=
  fun w => match create (cwd w) name with
           | Ok d => (Ok name, World d (stdout w))
           | Raise e => (Raise e, w)
           end.

Definition write (name : string) (text : string) : M unit :=
  fun w => (Ok tt, World (store (cwd w) name text) (stdout w)).

(** ** The script

    The script is one module-level sequence of statements. It is cut here
    into its consecutive blocks, each named after what it does; the variables
    a block leaves for the next ones are its result. *)

Definition marker : string := "_response.json".
Definition output_name : string := "dao_voting_adapter_full_schema.json".

(** Lines 6-13. *)
Definition initial_schema : value :=
  VDict [ ("instantiate", VDict []);
          ("execute", VDict []);
          ("query", VDict []);
          ("migrate", VDict []);
          ("sudo", VDict []);
          ("responses", VDict []) ].

(** Lines 15-19; the script declares the list and never reads it. *)
Definition required : list string :=
  [ "instantiate_msg.json";
    "execute_msg.json";
    "query_msg.json" ].

(** The subscript [file.split("_response.json")[0]] of line 42. *)
Definition key_of (file : string) : result string :=
  match str_split file "_response.json" with
  | Ok parts => list_getitem parts 0
  | Raise e => Raise e
  end.

Section Script.

(** [json.load] on the text of a file: the parsed document or the exception
    raised. *)
Variable json_load : string -> result value.

(** [json.dump(obj, f, indent=2)]: the text written to [f], and the
    exception that interrupted the writing, if any. *)
Variable json_dump : value -> string * option exn.

Definition json_dump_to (f : string) (obj : value) : M unit :=
  let (text, err) := json_dump obj in
  write f text ;;
  match err with
  | Some e => lift (Raise e)
  | None => ret tt
  end.

(** Lines 21-27: the list [responses]. *)
Definition discover : M (list string) :=
  let responses : list string := [] in
  names <- os_listdir ;;
  files <- comprehension names os_path_isfile ;;
  ret (fold_left (fun responses f =>
                    if PyStr.endswith f "_response.json"
                    then (responses ++ [f])%list else responses)
                 files responses).

(** Lines 31-38. *)
Definition load_required (schema : value) : M value :=
  imj <- open_r "instantiate_msg.json" ;;
  v <- lift (json_load imj) ;;
  schema <- lift (setitem schema "instantiate" v) ;;
  exj <- open_r "execute_msg.json" ;;
  v <- lift (json_load exj) ;;
  schema <- lift (setitem schema "execute" v) ;;
  qj <- open_r "query_msg.json" ;;
  v <- lift (json_load qj) ;;
  lift (setitem schema "query" v).

(** Lines 40-42. The right-hand side is evaluated first, then the target:
    the dict under ["responses"], then the subscript. That dict is updated
    in place and the schema holds the only reference to it, which the last
    step writes out. *)
Definition collect (responses : list string) (schema : value) : M value :=
  for_each responses schema (fun schema file =>
    f <- open_r file ;;
    v <- lift (json_load f) ;;
    r <- lift (getitem schema "responses") ;;
    k <- lift (key_of file) ;;
    r <- lift (setitem r k v) ;;
    lift (setitem schema "responses" r)).

(** Lines 4-42: everything before the output is opened; the result is the
    object [schema] that line 45 serialises. *)
Definition compose : M value :=
  print [PStr "Generating full schema..."] ;;
  let schema := initial_schema in
  responses <- discover ;;
  print [PStr "Using response files:"; PStrList responses] ;;
  schema <- load_required schema ;;
  collect responses schema.

(** Lines 44-45. *)
Definition emit (schema : value) : M unit :=
  f <- open_w "dao_voting_adapter_full_schema.json" ;;
  json_dump_to f schema.

Definition main : M unit :=
  schema <- compose ;;
  emit schema ;;
  print [PStr "DAO Voting Adapter full schema generated."].

(** The process: exit status 0 when the script runs to its end, 1 when an
    exception reaches the top level. *)
Record outcome : Type := Outcome {
  exit_status : Z;
  uncaught : option exn;
  final : world
}.

Definition run (w : world) : outcome :=
  match main w with
  | (Ok _, w') => Outcome 0 None w'
  | (Raise e, w') => Outcome 1 (Some e) w'
  end.

End Script.

(** ** A JSON reader and writer for concrete runs

    [Lite.load] and [Lite.dump] follow CPython's [json.load] and
    [json.dump(..., indent=2)] on ASCII documents without fraction or
    exponent parts, without [\u] escapes, nested at most [max_depth] deep
    and with integers of at most 4300 digits. On anything else they raise
    [unsupported], which Python does not: they serve the examples on
    concrete directories, while every general statement below holds for any
    [json_load] and [json_dump]. *)

Module Lite.

Import PyStr.

Definition unsupported : exn := OtherError "outside the modelled subset".
Definition max_depth : nat := 64.

Definition is_ws (c : ascii) : bool :=
  Ascii.eqb c " " || Ascii.eqb c "009" || Ascii.eqb c "010" || Ascii.eqb c "013".

Fixpoint skip_ws (s : string) : string :=
  match s with
  | String c s' => if is_ws c then skip_ws s' else s
  | EmptyString => s
  end.

Definition is_digit (c : ascii) : bool :=
  (48 <=? nat_of_ascii c)%nat && (nat_of_ascii c <=? 57)%nat.

Definition digit_val (c : ascii) : Z := Z.of_nat (nat_of_ascii c - 48).

(** The longest run of digits at the head of [s]: its value after [acc],
    its length and the rest. *)
Fixpoint digits (acc : Z) (n : nat) (s : string) : Z * nat * string :=
  match s with
  | String c s' =>
      if is_digit c then digits (10 * acc + digit_val c) (S n) s'
      else (acc, n, s)
  | EmptyString => (acc, n, s)
  end.

Definition starts_with_digit (s : string) : bool :=
  match s with
  | String c _ => is_digit c
  | EmptyString => false
  end.

(** A fraction or an exponent follows the integer part. *)
Definition float_follows (s : string) : bool :=
  match s with
  | String "." s' => starts_with_digit s'
  | String c s' =>
      if Ascii.eqb c "e" || Ascii.eqb c "E" then
        match s' with
        | String d s'' =>
            if Ascii.eqb d "+" || Ascii.eqb d "-"
            then starts_with_digit s'' else is_digit d
        | EmptyString => false
        end
      else false
  | EmptyString => false
  end.

(** The integer part [0|[1-9][0-9]*] at the head of [s], negated when
    [neg]. *)
Definition scan_int (neg : bool) (s : string) : result (value * string) :=
  match s with
  | String c s' =>
      if Ascii.eqb c "0" then
        if float_follows s' then Raise unsupported else Ok (VInt 0, s')
      else if is_digit c then
        let '(n, len, rest) := digits 0 0 s in
        if float_follows rest then Raise unsupported
        else if (4300 <? len)%nat then Raise unsupported
        else Ok (VInt (if neg then - n else n), rest)
      else Raise (JSONDecodeError "Expecting value")
  | EmptyString => Raise (JSONDecodeError "Expecting value")
  end.

Definition unescape (c : ascii) : option ascii :=
  if Ascii.eqb c dquote then Some dquote
  else if Ascii.eqb c backslash then Some backslash
  else if Ascii.eqb c "/" then Some "/"%char
  else if Ascii.eqb c "b" then Some "008"%char
  else if Ascii.eqb c "f" then Some "012"%char
  else if Ascii.eqb c "n" then Some "010"%char
  else if Ascii.eqb c "r" then Some "013"%char
  else if Ascii.eqb c "t" then Some "009"%char
  else None.

(** The body of a string literal, after its opening quote. *)
Fixpoint scan_string (acc : string) (s : string) : result (string * string) :=
  match s with
  | EmptyString =>
      Raise (JSONDecodeError "Unterminated string starting at")
  | String c s' =>
      if Ascii.eqb c dquote then Ok (acc, s')
      else if Ascii.eqb c backslash then
        match s' with
        | String e s'' =>
            match unescape e with
            | Some x => scan_string (acc ++ String x "") s''
            | None =>
                if Ascii.eqb e "u" then Raise unsupported
                else Raise (JSONDecodeError "Invalid escape")
            end
        | EmptyString =>
            Raise (JSONDecodeError "Unterminated string starting at")
        end
      else if (nat_of_ascii c <? 32)%nat then
        Raise (JSONDecodeError "Invalid control character at")
      else if (127 <? nat_of_ascii c)%nat then Raise unsupported
      else scan_string (acc ++ String c "") s'
  end.

(** [scan_once]: one value at the head of [s]. [fuel] bounds the number of
    nested calls, [depth] the nesting of containers. The pairs of an object
    are entered one after the other in a dict, so that a repeated key keeps
    its first place and its last value. *)
Fixpoint parse_value (fuel depth : nat) (s : string) : result (value * string) :=
  match fuel with
  | O => Raise unsupported
  | S fuel' =>
    match s with
    | EmptyString => Raise (JSONDecodeError "Expecting value")
    | String c s' =>
      if Ascii.eqb c dquote then
        match scan_string "" s' with
        | Ok (str, rest) => Ok (VStr str, rest)
        | Raise e => Raise e
        end
      else if Ascii.eqb c "{" then
        match depth with
        | O => Raise unsupported
        | S depth' =>
          match skip_ws s' with
          | String "}" rest => Ok (VDict [], rest)
          | s1 =>
            match parse_members fuel' depth' [] s1 with
            | Ok (d, rest) => Ok (VDict d, rest)
            | Raise e => Raise e
            end
          end
        end
      else if Ascii.eqb c "[" then
        match depth with
        | O => Raise unsupported
        | S depth' =>
          match skip_ws s' with
          | String "]" rest => Ok (VList [], rest)
          | s1 =>
            match parse_elements fuel' depth' [] s1 with
            | Ok (l, rest) => Ok (VList l, rest)
            | Raise e => Raise e
            end
          end
        end
      else if prefix "null" s then Ok (VNone, substring 4 (String.length s) s)
      else if prefix "true" s then
        Ok (VBool true, substring 4 (String.length s) s)
      else if prefix "false" s then
        Ok (VBool false, substring 5 (String.length s) s)
      else if prefix "NaN" s then
        Ok (VFloat S754_nan, substring 3 (String.length s) s)
      else if prefix "Infinity" s then
        Ok (VFloat (S754_infinity false), substring 8 (String.length s) s)
      else if prefix "-Infinity" s then
        Ok (VFloat (S754_infinity true), substring 9 (String.length s) s)
      else if Ascii.eqb c "-" then scan_int true s'
      else scan_int false s
    end
  end

(** The elements of an array from the head of an element on. *)
with parse_elements (fuel depth : nat) (acc : list value) (s : string)
  : result (list value * string) :=
  match fuel with
  | O => Raise unsupported
  | S fuel' =>
    match parse_value fuel' depth s with
    | Raise e => Raise e
    | Ok (v, rest) =>
      match skip_ws rest with
      | String "," rest' =>
          parse_elements fuel' depth (acc ++ [v])%list (skip_ws rest')
      | String "]" rest' => Ok ((acc ++ [v])%list, rest')
      | _ => Raise (JSONDecodeError "Expecting ',' delimiter")
      end
    end
  end

(** The members of an object from the opening quote of a key on. *)
with parse_members (fuel depth : nat) (acc : dict) (s : string)
  : result (dict * string) :=
  match fuel with
  | O => Raise unsupported
  | S fuel' =>
    match s with
    | String c s' =>
      if Ascii.eqb c dquote then
        match scan_string "" s' with
        | Raise e => Raise e
        | Ok (key, rest) =>
          match skip_ws rest with
          | String ":" rest' =>
            match parse_value fuel' depth (skip_ws rest') with
            | Raise e => Raise e
            | Ok (v, rest'') =>
              match skip_ws rest'' with
              | String "," rest3 =>
                  parse_members fuel' depth (dict_set acc key v)
                                (skip_ws rest3)
              | String "}" rest3 => Ok (dict_set acc key v, rest3)
              | _ => Raise (JSONDecodeError "Expecting ',' delimiter")
              end
            end
          | _ => Raise (JSONDecodeError "Expecting ':' delimiter")
          end
        end
      else
        Raise (JSONDecodeError
                 "Expecting property name enclosed in double quotes")
    | EmptyString =>
      Raise (JSONDecodeError
               "Expecting property name enclosed in double quotes")
    end
  end.

(** [json.load]: one value between optional white space, nothing after. *)
Definition load (text : string) : result value :=
  match parse_value (2 * String.length text + 2) max_depth (skip_ws text) with
  | Raise e => Raise e
  | Ok (v, rest) =>
      match skip_ws rest with
      | EmptyString => Ok v
      | _ => Raise (JSONDecodeError "Extra data")
      end
  end.

(** *** The writer *)

Definition hex_digit (n : nat) : ascii :=
  if (n <? 10)%nat then ascii_of_nat (48 + n) else ascii_of_nat (87 + n).

(** One character of a string under [ensure_ascii]. *)
Definition encode_char (c : ascii) : option string :=
  let n := nat_of_ascii c in
  if Ascii.eqb c dquote then Some (String backslash (String dquote ""))
  else if Ascii.eqb c backslash then Some (String backslash (String backslash ""))
  else if Ascii.eqb c "010" then Some (String backslash "n")
  else if Ascii.eqb c "013" then Some (String backslash "r")
  else if Ascii.eqb c "009" then Some (String backslash "t")
  else if Ascii.eqb c "008" then Some (String backslash "b")
  else if Ascii.eqb c "012" then Some (String backslash "f")
  else if (127 <? n)%nat then None
  else if (n <? 32)%nat || (n =? 127)%nat then
    Some (String backslash "u00" ++
          String (hex_digit (n / 16)) (String (hex_digit (n mod 16)) ""))
  else Some (String c "").

Fixpoint encode_chars (s : string) : option string :=
  match s with
  | EmptyString => Some ""
  | String c s' =>
      match encode_char c, encode_chars s' with
      | Some a, Some b => Some (a ++ b)
      | _, _ => None
      end
  end.

Definition encode_str (s : string) : option string :=
  match encode_chars s with
  | Some body => Some (quoted body)
  | None => None
  end.

Fixpoint spaces (n : nat) : string :=
  match n with
  | O => ""
  | S n' => String " " (String " " (spaces n'))
  end.

(** A line break and the indentation of nesting [level], two spaces a
    level. *)
Definition newline_indent (level : nat) : string := String "010" (spaces level).

Definition bracket (open close : string) (level : nat) (body : option string)
  : option string :=
  match body with
  | Some b =>
      Some (open ++ newline_indent (S level) ++ b ++ newline_indent level ++ close)
  | None => None
  end.

Definition item (level : nat) (last : bool) (x rest : option string)
  : option string :=
  match x, rest with
  | Some a, Some b =>
      Some (a ++ (if last then "" else "," ++ newline_indent level) ++ b)
  | _, _ => None
  end.

Definition member (key value : option string) : option string :=
  match key, value with
  | Some k, Some v => Some (k ++ ": " ++ v)
  | _, _ => None
  end.

Definition is_nil {A : Type} (l : list A) : bool :=
  match l with [] => true | _ => false end.

(** The text of [v] at nesting [level]; [None] outside the subset. *)
Fixpoint dump_text (level : nat) (v : value) {struct v} : option string :=
  match v with
  | VNone => Some "null"
  | VBool true => Some "true"
  | VBool false => Some "false"
  | VInt n => Some (NilZero.string_of_int (Z.to_int n))
  | VFloat S754_nan => Some "NaN"
  | VFloat (S754_infinity false) => Some "Infinity"
  | VFloat (S754_infinity true) => Some "-Infinity"
  | VFloat _ => None
  | VStr s => encode_str s
  | VList [] => Some "[]"
  | VList items =>
      bracket "[" "]" level
        ((fix go (l : list value) : option string :=
            match l with
            | [] => Some ""
            | x :: l' =>
                item (S level) (is_nil l') (dump_text (S level) x) (go l')
            end) items)
  | VDict [] => Some "{}"
  | VDict entries =>
      bracket "{" "}" level
        ((fix go (l : list (string * value)) : option string :=
            match l with
            | [] => Some ""
            | (k, x) :: l' =>
                item (S level) (is_nil l')
                     (member (encode_str k) (dump_text (S level) x)) (go l')
            end) entries)
  end.

(** [json.dump(obj, f, indent=2)]. *)
Definition dump (obj : value) : string * option exn :=
  match dump_text 0 obj with
  | Some text => (text, None)
  | None => ("", Some unsupported)
  end.

End Lite.

(** ** What the blocks compute *)

(** The names [discover] returns, in enumeration order. *)
Definition response_files (d : directory) : list string :=
  filter (fun f => PyStr.endswith f marker) (filter (isfile d) (listdir d)).

(** The part of [s] before the first occurrence of [sep], all of [s] when
    [sep] does not occur. *)
Fixpoint before_first (sep s : string) : string :=
  match s with
  | EmptyString => ""
  | String c s' => if prefix sep s then "" else String c (before_first sep s')
  end.

Definition response_key (file : string) : string := before_first marker file.

(** The last of [files] whose derived key is [key]. *)
Fixpoint last_deriving (key : string) (files : list string) : option string :=
  match files with
  | [] => None
  | f :: files' =>
      match last_deriving key files' with
      | Some g => Some g
      | None => if String.eqb (response_key f) key then Some f else None
      end
  end.

Definition schema_of (i e q : value) (r : dict) : value :=
  VDict [ ("instantiate", i);
          ("execute", e);
          ("query", q);
          ("migrate", VDict []);
          ("sudo", VDict []);
          ("responses", VDict r) ].

(** Two schemas that differ at most in the order of the keys of
    [responses]. *)
Definition same_up_to_response_order (s1 s2 : value) : Prop :=
  exists i e q r1 r2,
    s1 = schema_of i e q r1 /\ s2 = schema_of i e q r2 /\ Permutation r1 r2.

(** The world once the two opening lines are printed. *)
Definition announced (w : world) : world :=
  World (cwd w)
        (stdout w ++ [ [PStr "Generating full schema..."];
                       [PStr "Using response files:";
                        PStrList (response_files (cwd w))] ])%list.

Section Pure.

Variable json_load : string -> result value.

(** The parsed contents of the file [name]. *)
Definition load_fragment (d : directory) (name : string) : result value :=
  match read d name with
  | Ok c => json_load c
  | Raise e => Raise e
  end.

(** The dict under ["responses"] after the loop over [files], from [r]. *)
Fixpoint collected (d : directory) (files : list string) (r : dict)
  : result dict :=
  match files with
  | [] => Ok r
  | f :: files' =>
      match load_fragment d f with
      | Ok v => collected d files' (dict_set r (response_key f) v)
      | Raise e => Raise e
      end
  end.

(** The object [compose] builds in the directory [d]. *)
Definition composed (d : directory) : result value :=
  match load_fragment d "instantiate_msg.json" with
  | Raise e => Raise e
  | Ok i =>
    match load_fragment d "execute_msg.json" with
    | Raise e => Raise e
    | Ok e =>
      match load_fragment d "query_msg.json" with
      | Raise e => Raise e
      | Ok q =>
        match collected d (response_files d) [] with
        | Raise e => Raise e
        | Ok r => Ok (schema_of i e q r)
        end
      end
    end
  end.

End Pure.

(** ** The spec's wording, where it differs from the script *)

(** [sep] occurs somewhere in [s]. *)
Fixpoint occurs (sep s : string) : bool :=
  prefix sep s ||
  match s with
  | EmptyString => false
  | String _ s' => occurs sep s'
  end.

(** The part of [s] before the last occurrence of [sep], all of [s] when
    [sep] does not occur. *)
Fixpoint before_last (sep s : string) : string :=
  match s with
  | EmptyString => ""
  | String c s' =>
      if occurs sep s' then String c (before_last sep s')
      else if prefix sep s then ""
      else String c (before_last sep s')
  end.

(** Section 4.3 of the spec: the key is the prefix before [_response],
    everything from the marker onward removed. [cut] says at which
    occurrence of the marker the name is cut: [before_first] or
    [before_last]. *)
Definition key_before_marker_as_stated
    (cut : string -> string -> string) (file : string) : string :=
  cut "_response" file.

(** Property 4 of the spec, as stated: [execute] is paired with
    [query_msg.json]. *)
Definition pass_through_as_stated
    (json_load : string -> result value)
    (json_dump : value -> string * option exn) (w : world) : Prop :=
  exit_status (run json_load json_dump w) = 0%Z ->
  exists schema,
    fst (compose json_load w) = Ok schema /\
    getitem schema "instantiate" =
      load_fragment json_load (cwd w) "instantiate_msg.json" /\
    getitem schema "execute" =
      load_fragment json_load (cwd w) "query_msg.json" /\
    getitem schema "query" =
      load_fragment json_load (cwd w) "query_msg.json".

(** The key derivation as stated: for every collected file, the subscript
    is the prefix before [_response]. *)
Definition key_derivation_as_stated (cut : string -> string -> string) : Prop :=
  forall file,
    PyStr.endswith file marker = true ->
    key_of file = Ok (key_before_marker_as_stated cut file).

(** The same claim on the contents: the parsed contents of every collected
    file appear in [responses] under the prefix of its name before
    [_response]. *)
Definition contents_under_key_as_stated
    (json_load : string -> result value) (w : world) : Prop :=
  forall file schema,
    In file (response_files (cwd w)) ->
    fst (compose json_load w) = Ok schema ->
    exists r v,
      getitem schema "responses" = Ok (VDict r) /\
      load_fragment json_load (cwd w) file = Ok v /\
      dict_get r (key_before_marker_as_stated before_first file) = Some v.

(** The file [_response.json] as stated: once composed, its parsed contents
    are under the empty key, whatever else was collected. *)
Definition empty_key_as_stated
    (json_load : string -> result value) (w : world) : Prop :=
  forall c schema,
    lookup (cwd w) "_response.json" = Some (File c) ->
    fst (compose json_load w) = Ok schema ->
    In "_response.json" (response_files (cwd w)) /\
    exists r v,
      getitem schema "responses" = Ok (VDict r) /\
      json_load c = Ok v /\
      dict_get r "" = Some v.

(** ** Directories for the examples *)

Definition dir_of_files (l : list (string * string)) : directory :=
  map (fun p => (fst p, File (snd p))) l.

(** The text of a JSON object with the one member [title]. *)
Definition titled (t : string) : string :=
  "{" ++ PyStr.quoted "title" ++ ": " ++ PyStr.quoted t ++ "}".

(** A JSON object that stops after its first colon. *)
Definition cut_short : string := "{" ++ PyStr.quoted "title" ++ ": ".

Definition mandatory_files : list (string * string) :=
  [ ("instantiate_msg.json", titled "InstantiateMsg");
    ("execute_msg.json", titled "ExecuteMsg");
    ("query_msg.json", titled "QueryMsg") ].

(** The three mandatory fragments, one response fragment and a
    subdirectory. *)
Definition sample_dir : directory :=
  (dir_of_files mandatory_files ++
   [ ("get_vote_response.json", File (titled "VoteResponse"));
     ("raw", Dir [("inner_response.json", File "{}")]) ])%list.

Definition sample_world : world := World sample_dir [].

(** [execute_msg.json] is missing; a previous output is there. *)
Definition no_execute_world : world :=
  World (dir_of_files [ ("instantiate_msg.json", "{}");
                        ("query_msg.json", "{}");
                        ("dao_voting_adapter_full_schema.json", "old") ]) [].

(** [query_msg.json] is cut short. *)
Definition malformed_world : world :=
  World (dir_of_files [ ("instantiate_msg.json", "{}");
                        ("execute_msg.json", "{}");
                        ("query_msg.json", cut_short) ]) [].

(** Mandatory fragments that differ from one another. *)
Definition distinct_world : world :=
  World (dir_of_files [ ("instantiate_msg.json", "0");
                        ("execute_msg.json", "1");
                        ("query_msg.json", "2") ]) [].

(** Two response files deriving the key [foo]. *)
Definition collision_world : world :=
  World (dir_of_files mandatory_files ++
         dir_of_files [ ("foo_response.json", "1");
                        ("bar_response.json", "3");
                        ("foo_response.json_response.json", "2") ])%list [].

(** Two response files deriving the empty key. *)
Definition empty_key_world : world :=
  World (dir_of_files mandatory_files ++
         dir_of_files [ ("_response.json", "1");
                        ("_response.json_response.json", "2") ])%list [].

(** The file [_response.json] is the only response file. *)
Definition lone_empty_key_world : world :=
  World (dir_of_files mandatory_files ++
         dir_of_files [ ("_response.json", "1") ])%list [].

(** The sample directory enumerated in another order, with one more
    response file on both sides. *)
Definition shuffled_worlds : world * world :=
  (World (dir_of_files mandatory_files ++
          dir_of_files [ ("a_response.json", "1");
                         ("b_response.json", "2") ])%list [],
   World (dir_of_files [ ("b_response.json", "2") ] ++
          dir_of_files mandatory_files ++
          dir_of_files [ ("a_response.json", "1") ])%list []).

(** What is composed in [sample_world] and in [empty_key_world]. *)
Definition sample_schema : value :=
  schema_of (VDict [("title", VStr "InstantiateMsg")])
            (VDict [("title", VStr "ExecuteMsg")])
            (VDict [("title", VStr "QueryMsg")])
            [("get_vote", VDict [("title", VStr "VoteResponse")])].

Definition lone_empty_key_schema : value :=
  schema_of (VDict [("title", VStr "InstantiateMsg")])
            (VDict [("title", VStr "ExecuteMsg")])
            (VDict [("title", VStr "QueryMsg")])
            [("", VInt 1)].

Definition empty_key_schema : value :=
  schema_of (VDict [("title", VStr "InstantiateMsg")])
            (VDict [("title", VStr "ExecuteMsg")])
            (VDict [("title", VStr "QueryMsg")])
            [("", VInt 2)].

(** What is composed in the first of [shuffled_worlds]. *)
Definition shuffled_schema : value :=
  schema_of (VDict [("title", VStr "InstantiateMsg")])
            (VDict [("title", VStr "ExecuteMsg")])
            (VDict [("title", VStr "QueryMsg")])
            [("a", VInt 1); ("b", VInt 2)].

(** ** The order of loading, the order of the keys *)

(** The exception of the first of [names] that fails to load. *)
Fixpoint first_failure (json_load : string -> result value) (d : directory)
         (names : list string) : option exn :=
  match names with
  | [] => None
  | n :: names' =>
      match load_fragment json_load d n with
      | Raise x => Some x
      | Ok _ => first_failure json_load d names'
      end
  end.

(** The elements of [l], each at the place of its first occurrence. *)
Definition first_occurrences (l : list string) : list string :=
  fold_left (fun seen k =>
               if existsb (String.eqb k) seen then seen
               else (seen ++ [k])%list)
            l [].

(** A [json.dump] whose second write fails: the opening brace is in the
    file when the exception is raised. *)
Definition interrupted_dump (obj : value) : string * option exn :=
  ("{", Some (OtherError "No space left on device")).

(** The mandatory fragments alone. *)
Definition zero_response_world : world :=
  World (dir_of_files mandatory_files) [].

(** The name of the output is taken by a directory. *)
Definition output_is_dir_world : world :=
  World (dir_of_files mandatory_files ++
         [ ("dao_voting_adapter_full_schema.json", Dir []) ])%list [].

(** [execute_msg.json] is a directory. *)
Definition mandatory_is_dir_world : world :=
  World [ ("instantiate_msg.json", File "{}");
          ("execute_msg.json", Dir []);
          ("query_msg.json", File "{}") ] [].

(** A response file that is cut short is enumerated first, and
    [execute_msg.json] is missing. *)
Definition two_failures_world : world :=
  World (dir_of_files [ ("a_response.json", cut_short);
                        ("instantiate_msg.json", "{}");
                        ("query_msg.json", "{}") ]) [].

(** Mandatory fragments that are empty objects, and the output of a
    previous run. *)
Definition stale_output_world : world :=
  World (dir_of_files [ ("instantiate_msg.json", "{}");
                        ("execute_msg.json", "{}");
                        ("query_msg.json", "{}");
                        ("dao_voting_adapter_full_schema.json", "old") ]) [].

(** An unrelated file beside the sample directory's entries. *)
Definition unrelated_name : string := "README.md".

(** What is composed in [zero_response_world] and in [collision_world]. *)
Definition zero_response_schema : value :=
  schema_of (VDict [("title", VStr "InstantiateMsg")])
            (VDict [("title", VStr "ExecuteMsg")])
            (VDict [("title", VStr "QueryMsg")])
            [].

Definition collision_schema : value :=
  schema_of (VDict [("title", VStr "InstantiateMsg")])
            (VDict [("title", VStr "ExecuteMsg")])
            (VDict [("title", VStr "QueryMsg")])
            [("foo", VInt 2); ("bar", VInt 3)].

(** ** Strings *)

Lemma append_nil_r (s : string) : s ++ "" = s.
Proof. induction s as [|c s IH]; simpl; congruence. Qed.

Lemma append_assoc (a b c : string) : (a ++ b) ++ c = a ++ (b ++ c).
Proof. induction a as [|x a IH]; simpl; congruence. Qed.

Lemma prefix_iff (a s : string) :
  prefix a s = true <-> exists r, s = a ++ r.
Proof.
  revert s. induction a as [|x a IH]; intros s; simpl.
  - destruct s; split; eauto.
  - destruct s as [|y s]; simpl.
    + split; [discriminate | intros [r H]; discriminate].
    + destruct (ascii_dec x y) as [->|Hne].
      * rewrite IH. split; intros [r H]; exists r; congruence.
      * split; [discriminate | intros [r H]; congruence].
Qed.

Lemma endswith_iff (s suffix : string) :
  PyStr.endswith s suffix = true <-> exists p, s = p ++ suffix.
Proof.
  induction s as [|c s IH]; cbn [PyStr.endswith].
  - destruct (String.eqb_spec "" suffix) as [<-|Hne].
    + split; [exists ""; reflexivity | auto].
    + split; [discriminate|].
      intros [p H]. destruct p; simpl in H; [congruence | discriminate].
  - destruct (String.eqb_spec (String c s) suffix) as [<-|Hne].
    + split; [exists ""; reflexivity | auto].
    + rewrite IH. split.
      * intros [p ->]. exists (String c p). reflexivity.
      * intros [p H]. destruct p as [|x p]; simpl in H; [congruence|].
        exists p. congruence.
Qed.

(** The first piece of a split is the part before the first separator. *)
Lemma split_from_head (sep s cur : string) :
  nth_error (PyStr.split_from sep 0 cur s) 0 = Some (cur ++ before_first sep s).
Proof.
  revert cur. induction s as [|c s IH]; intros cur.
  - simpl. now rewrite append_nil_r.
  - cbn [PyStr.split_from before_first].
    destruct (prefix sep (String c s)).
    + simpl. now rewrite append_nil_r.
    + rewrite IH, append_assoc. reflexivity.
Qed.

Lemma key_of_response_key (file : string) :
  key_of file = Ok (response_key file).
Proof.
  unfold key_of, str_split, list_getitem. simpl String.eqb. cbv iota.
  now rewrite split_from_head.
Qed.

(** [before_first] cuts at an occurrence, and at the first one. *)
Lemma before_first_occurrence (sep s p r : string) :
  s = p ++ sep ++ r ->
  (exists r', s = before_first sep s ++ sep ++ r') /\
  String.length (before_first sep s) <= String.length p.
Proof.
  revert p. induction s as [|c s IH]; intros p H.
  - destruct p; simpl in H; [|discriminate].
    destruct sep; simpl in H; [|discriminate].
    split; [exists ""; reflexivity | simpl; lia].
  - cbn [before_first].
    destruct (prefix sep (String c s)) eqn:Hp.
    + apply prefix_iff in Hp. destruct Hp as [r' Hr'].
      split; [exists r'; exact Hr' | simpl; lia].
    + destruct p as [|x p].
      * simpl in H. assert (prefix sep (String c s) = true)
          by (apply prefix_iff; eauto). congruence.
      * simpl in H. injection H as -> H.
        destruct (IH _ H) as [[r' Hr'] Hlen].
        split; [exists r'; simpl; congruence | simpl; lia].
Qed.

Lemma before_first_absent (sep s : string) :
  (forall p r, s <> p ++ sep ++ r) -> before_first sep s = s.
Proof.
  induction s as [|c s IH]; intros H; [reflexivity|].
  cbn [before_first].
  destruct (prefix sep (String c s)) eqn:Hp.
  - apply prefix_iff in Hp. destruct Hp as [r Hr].
    exfalso. apply (H "" r). exact Hr.
  - f_equal. apply IH. intros p r Hs. apply (H (String c p) r).
    simpl. congruence.
Qed.

(** ** The directory *)

Lemma lookup_store_same (d : directory) (name c : string) :
  lookup (store d name c) name = Some (File c).
Proof.
  induction d as [|[n x] d IH]; simpl.
  - now rewrite String.eqb_refl.
  - destruct (String.eqb n name) eqn:E; simpl; rewrite E; auto.
Qed.

Lemma lookup_store_other (d : directory) (name c other : string) :
  other <> name -> lookup (store d name c) other = lookup d other.
Proof.
  intros Hne. induction d as [|[n x] d IH]; simpl.
  - destruct (String.eqb_spec name other); congruence.
  - destruct (String.eqb_spec n name) as [->|Hn]; simpl.
    + destruct (String.eqb_spec name other); congruence.
    + now rewrite IH.
Qed.

Lemma store_store (d : directory) (name c c' : string) :
  store (store d name c) name c' = store d name c'.
Proof.
  induction d as [|[n x] d IH]; simpl.
  - now rewrite String.eqb_refl.
  - destruct (String.eqb n name) eqn:E; simpl; rewrite E; congruence.
Qed.

Lemma isfile_store_other (d : directory) (name c other : string) :
  other <> name -> isfile (store d name c) other = isfile d other.
Proof. intros H. unfold isfile. now rewrite lookup_store_other. Qed.

Lemma read_store_other (d : directory) (name c other : string) :
  other <> name -> read (store d name c) other = read d other.
Proof. intros H. unfold read. now rewrite lookup_store_other. Qed.

(** Storing a file adds at most its own name to the listing, at the end. *)
Lemma listdir_store (d : directory) (name c : string) :
  listdir (store d name c) =
  match lookup d name with
  | Some _ => listdir d
  | None => (listdir d ++ [name])%list
  end.
Proof.
  unfold listdir. induction d as [|[n x] d IH]; simpl; [reflexivity|].
  destruct (String.eqb n name) eqn:E; simpl; [reflexivity|].
  rewrite IH. now destruct (lookup d name).
Qed.

Lemma In_listdir_lookup (d : directory) (name : string) :
  In name (listdir d) <-> exists x, lookup d name = Some x.
Proof.
  unfold listdir. induction d as [|[n x] d IH]; simpl.
  - split; [tauto | intros [x H]; discriminate].
  - destruct (String.eqb_spec n name) as [->|Hn].
    + split; eauto.
    + rewrite IH. split; [intros [?|?]; [congruence | assumption] | auto].
Qed.

Lemma output_name_not_response : PyStr.endswith output_name marker = false.
Proof. reflexivity. Qed.

Lemma In_response_files (d : directory) (name : string) :
  In name (response_files d) <->
  In name (listdir d) /\ isfile d name = true /\
  PyStr.endswith name marker = true.
Proof. unfold response_files. rewrite !filter_In. tauto. Qed.

Lemma response_file_not_output (d : directory) (name : string) :
  In name (response_files d) -> name <> output_name.
Proof.
  intros H ->. apply In_response_files in H.
  destruct H as (_ & _ & H). rewrite output_name_not_response in H.
  discriminate.
Qed.

Lemma required_not_output (name : string) :
  In name required -> name <> output_name.
Proof.
  unfold required. simpl.
  intros [<-|[<-|[<-|[]]]]; discriminate.
Qed.

(** Writing the output file does not change what is discovered. *)
Lemma response_files_store_output (d : directory) (c : string) :
  response_files (store d output_name c) = response_files d.
Proof.
  unfold response_files. rewrite listdir_store.
  assert (Hout : forall l,
    filter (fun f => PyStr.endswith f marker)
           (filter (isfile (store d output_name c)) l) =
    filter (fun f => PyStr.endswith f marker) (filter (isfile d) l)).
  { induction l as [|x l IH]; simpl; [reflexivity|].
    destruct (String.eqb_spec x output_name) as [->|Hx].
    - destruct (isfile (store d output_name c) output_name),
               (isfile d output_name); simpl;
        rewrite ?output_name_not_response; exact IH.
    - rewrite isfile_store_other by exact Hx.
      destruct (isfile d x); simpl; [|exact IH].
      destruct (PyStr.endswith x marker); [f_equal|]; exact IH. }
  destruct (lookup d output_name); [apply Hout|].
  rewrite Hout, !filter_app. simpl.
  destruct (isfile d output_name); simpl;
    rewrite ?output_name_not_response, ?app_nil_r; reflexivity.
Qed.

(** ** The blocks of the script, one by one *)

Lemma comprehension_isfile (names : list string) (w : world) :
  comprehension names os_path_isfile w = (Ok (filter (isfile (cwd w)) names), w).
Proof.
  induction names as [|x names IH]; [reflexivity|].
  cbn [comprehension filter]. unfold bind at 1. unfold os_path_isfile at 1.
  unfold bind at 1. rewrite IH. unfold ret.
  now destruct (isfile (cwd w) x).
Qed.

Lemma fold_left_select {A : Type} (p : A -> bool) (l acc : list A) :
  fold_left (fun acc x => if p x then (acc ++ [x])%list else acc) l acc =
  (acc ++ filter p l)%list.
Proof.
  revert acc. induction l as [|x l IH]; intros acc; simpl.
  - now rewrite app_nil_r.
  - rewrite IH. destruct (p x); [|reflexivity].
    now rewrite <- app_assoc.
Qed.

Section Facts.

Variable json_load : string -> result value.
Variable json_dump : value -> string * option exn.

Lemma discover_eq (w : world) :
  discover w = (Ok (response_files (cwd w)), w).
Proof.
  unfold discover, bind, os_listdir. rewrite comprehension_isfile.
  unfold ret. now rewrite fold_left_select.
Qed.

Lemma load_required_eq (w : world) :
  load_required json_load initial_schema w =
  (match load_fragment json_load (cwd w) "instantiate_msg.json" with
   | Raise e => Raise e
   | Ok i =>
     match load_fragment json_load (cwd w) "execute_msg.json" with
     | Raise e => Raise e
     | Ok e =>
       match load_fragment json_load (cwd w) "query_msg.json" with
       | Raise e => Raise e
       | Ok q => Ok (schema_of i e q [])
       end
     end
   end, w).
Proof.
  unfold load_required, load_fragment, bind, open_r, lift.
  destruct (read (cwd w) "instantiate_msg.json") as [ci|]; [|reflexivity].
  destruct (json_load ci) as [i|]; [|reflexivity]. simpl setitem. cbv iota.
  destruct (read (cwd w) "execute_msg.json") as [ce|]; [|reflexivity].
  destruct (json_load ce) as [e|]; [|reflexivity]. simpl setitem. cbv iota.
  destruct (read (cwd w) "query_msg.json") as [cq|]; [|reflexivity].
  destruct (json_load cq) as [q|]; reflexivity.
Qed.

Lemma collect_eq (files : list string) (i e q : value) (r : dict) (w : world) :
  collect json_load files (schema_of i e q r) w =
  (match collected json_load (cwd w) files r with
   | Ok r' => Ok (schema_of i e q r')
   | Raise x => Raise x
   end, w).
Proof.
  unfold collect. revert r.
  induction files as [|f files IH]; intros r; [reflexivity|].
  cbn [for_each collected]. unfold bind at 1. unfold bind at 1.
  unfold open_r at 1, load_fragment.
  destruct (read (cwd w) f) as [c|]; [|reflexivity].
  unfold bind at 1, lift at 1.
  destruct (json_load c) as [v|]; [|reflexivity].
  unfold bind at 1, lift at 1. simpl getitem. cbv iota.
  unfold bind at 1, lift at 1. rewrite key_of_response_key.
  unfold bind at 1, lift at 1. simpl setitem. cbv iota.
  unfold lift at 1. simpl setitem. cbv iota.
  apply IH.
Qed.

Lemma compose_eq (w : world) :
  compose json_load w = (composed json_load (cwd w), announced w).
Proof.
  unfold compose, bind at 1, print at 1.
  unfold bind at 1. rewrite discover_eq. cbn [cwd].
  unfold bind at 1, print at 1. cbn [cwd stdout].
  unfold bind at 1. rewrite load_required_eq. cbn [cwd].
  unfold composed, announced. rewrite <- app_assoc. simpl app.
  destruct (load_fragment json_load (cwd w) "instantiate_msg.json") as [i|];
    [|reflexivity].
  destruct (load_fragment json_load (cwd w) "execute_msg.json") as [e|];
    [|reflexivity].
  destruct (load_fragment json_load (cwd w) "query_msg.json") as [q|];
    [|reflexivity].
  rewrite collect_eq. reflexivity.
Qed.

Lemma emit_eq (schema : value) (w : world) :
  emit json_dump schema w =
  match lookup (cwd w) output_name with
  | Some (Dir _) => (Raise (IsADirectoryError output_name), w)
  | _ =>
      (match snd (json_dump schema) with
       | Some e => Raise e
       | None => Ok tt
       end,
       World (store (cwd w) output_name (fst (json_dump schema))) (stdout w))
  end.
Proof.
  unfold emit, bind, open_w, create, json_dump_to. fold output_name.
  destruct (lookup (cwd w) output_name) as [[c|ch]|];
    try reflexivity;
    destruct (json_dump schema) as [text [e|]]; unfold bind, write, lift, ret;
    cbn [cwd stdout fst snd]; now rewrite store_store.
Qed.

(** The whole script in one equation. *)
Lemma main_eq (w : world) :
  main json_load json_dump w =
  match composed json_load (cwd w) with
  | Raise x => (Raise x, announced w)
  | Ok schema =>
    match lookup (cwd w) output_name with
    | Some (Dir _) => (Raise (IsADirectoryError output_name), announced w)
    | _ =>
      let d := store (cwd w) output_name (fst (json_dump schema)) in
      match snd (json_dump schema) with
      | Some e => (Raise e, World d (stdout (announced w)))
      | None =>
          (Ok tt,
           World d (stdout (announced w) ++
                    [[PStr "DAO Voting Adapter full schema generated."]])%list)
      end
    end
  end.
Proof.
  unfold main. unfold bind at 1. rewrite compose_eq.
  destruct (composed json_load (cwd w)) as [schema|x]; [|reflexivity].
  unfold bind at 1. rewrite emit_eq.
  change (cwd (announced w)) with (cwd w).
  destruct (lookup (cwd w) output_name) as [[c|ch]|];
    try reflexivity;
    destruct (snd (json_dump schema)); reflexivity.
Qed.

(** A run that ends with status 0, in full. *)
Lemma run_success (w : world) :
  exit_status (run json_load json_dump w) = 0%Z ->
  exists schema,
    composed json_load (cwd w) = Ok schema /\
    snd (json_dump schema) = None /\
    (forall ch, lookup (cwd w) output_name <> Some (Dir ch)) /\
    final (run json_load json_dump w) =
    World (store (cwd w) output_name (fst (json_dump schema)))
          (stdout (announced w) ++
           [[PStr "DAO Voting Adapter full schema generated."]])%list.
Proof.
  unfold run. rewrite main_eq.
  destruct (composed json_load (cwd w)) as [schema|x]; [|discriminate].
  intros H. exists schema.
  destruct (lookup (cwd w) output_name) as [[c|ch]|] eqn:El;
    [ | discriminate | ];
    (destruct (snd (json_dump schema)) eqn:Es; [discriminate|]);
    (split; [reflexivity|]); (split; [reflexivity|]);
    (split; [intros ch; discriminate | reflexivity]).
Qed.

(** The converse: what makes a run end with status 0. *)
Lemma run_succeeds (w : world) (schema : value) :
  composed json_load (cwd w) = Ok schema ->
  snd (json_dump schema) = None ->
  (forall ch, lookup (cwd w) output_name <> Some (Dir ch)) ->
  exit_status (run json_load json_dump w) = 0%Z.
Proof.
  intros Hc Hd Hl. unfold run. rewrite main_eq, Hc, Hd.
  destruct (lookup (cwd w) output_name) as [[c|ch]|] eqn:El;
    [reflexivity | | reflexivity].
  now destruct (Hl ch).
Qed.

(** A run that fails before the output is opened leaves the directory as
    it was. *)
Lemma run_compose_fails (w : world) (x : exn) :
  composed json_load (cwd w) = Raise x ->
  run json_load json_dump w = Outcome 1 (Some x) (announced w).
Proof.
  intros H. unfold run. now rewrite main_eq, H.
Qed.

Lemma collected_fails (d : directory) (files : list string) (f c : string)
      (x : exn) :
  In f files -> read d f = Ok c -> json_load c = Raise x ->
  forall r, exists y, collected json_load d files r = Raise y.
Proof.
  intros Hin Hr Hl. induction files as [|g files IH]; [destruct Hin|].
  intros r. cbn [collected].
  destruct (load_fragment json_load d g) as [v|y] eqn:E; [|eauto].
  destruct Hin as [->|Hin]; [|auto].
  unfold load_fragment in E. rewrite Hr, Hl in E. discriminate.
Qed.

Lemma composed_fails_on (d : directory) (name : string) :
  (In name required \/ In name (response_files d)) ->
  (exists x, load_fragment json_load d name = Raise x) ->
  exists y, composed json_load d = Raise y.
Proof.
  intros Hin [x Hx]. unfold composed.
  destruct (load_fragment json_load d "instantiate_msg.json") as [i|] eqn:Ei;
    [|eauto].
  destruct (load_fragment json_load d "execute_msg.json") as [e|] eqn:Ee;
    [|eauto].
  destruct (load_fragment json_load d "query_msg.json") as [q|] eqn:Eq;
    [|eauto].
  destruct Hin as [Hin|Hin].
  - unfold required in Hin. simpl in Hin.
    destruct Hin as [<-|[<-|[<-|[]]]]; congruence.
  - unfold load_fragment in Hx.
    destruct (read d name) as [c|] eqn:Er.
    + destruct (collected_fails d _ name c x Hin Er Hx []) as [y Hy].
      rewrite Hy. eauto.
    + apply In_response_files in Hin. destruct Hin as (_ & Hf & _).
      unfold isfile in Hf. unfold read in Er.
      destruct (lookup d name) as [[?|?]|]; discriminate.
Qed.

End Facts.

(** ** Dicts *)

Lemma dict_get_set_same (d : dict) (k : string) (v : value) :
  dict_get (dict_set d k v) k = Some v.
Proof.
  induction d as [|[k' v'] d IH]; simpl.
  - now rewrite String.eqb_refl.
  - destruct (String.eqb k' k) eqn:E; simpl; rewrite E; auto.
Qed.

Lemma dict_get_set_other (d : dict) (k k' : string) (v : value) :
  k <> k' -> dict_get (dict_set d k v) k' = dict_get d k'.
Proof.
  intros Hne. induction d as [|[n x] d IH]; simpl.
  - destruct (String.eqb_spec k k'); congruence.
  - destruct (String.eqb_spec n k) as [->|Hn]; simpl.
    + destruct (String.eqb_spec k k'); congruence.
    + now rewrite IH.
Qed.

Lemma dict_keys_set (d : dict) (k : string) (v : value) :
  dict_keys (dict_set d k v) =
  if existsb (String.eqb k) (dict_keys d) then dict_keys d
  else (dict_keys d ++ [k])%list.
Proof.
  unfold dict_keys. induction d as [|[n x] d IH]; simpl; [reflexivity|].
  rewrite (String.eqb_sym k n).
  destruct (String.eqb n k) eqn:E; simpl; [reflexivity|].
  rewrite IH. now destruct (existsb (String.eqb k) (map fst d)).
Qed.

Lemma existsb_eqb_In (k : string) (l : list string) :
  existsb (String.eqb k) l = true <-> In k l.
Proof.
  rewrite existsb_exists. split.
  - intros (x & Hx & E). apply String.eqb_eq in E. now subst.
  - intros H. exists k. split; [assumption | apply String.eqb_refl].
Qed.

Lemma In_dict_keys_set (d : dict) (k k' : string) (v : value) :
  In k' (dict_keys (dict_set d k v)) <-> k' = k \/ In k' (dict_keys d).
Proof.
  rewrite dict_keys_set.
  destruct (existsb (String.eqb k) (dict_keys d)) eqn:E.
  - apply existsb_eqb_In in E. split; [auto | intros [->|H]; assumption].
  - rewrite in_app_iff. simpl. intuition congruence.
Qed.

Lemma NoDup_dict_keys_set (d : dict) (k : string) (v : value) :
  NoDup (dict_keys d) -> NoDup (dict_keys (dict_set d k v)).
Proof.
  intros H. rewrite dict_keys_set.
  destruct (existsb (String.eqb k) (dict_keys d)) eqn:E; [assumption|].
  apply NoDup_app; [assumption | repeat constructor; intros [] |].
  intros x Hx [<-|[]].
  apply existsb_eqb_In in Hx. congruence.
Qed.

(** A key that is not there yet is appended. *)
Lemma dict_set_fresh (d : dict) (k : string) (v : value) :
  ~ In k (dict_keys d) -> dict_set d k v = (d ++ [(k, v)])%list.
Proof.
  unfold dict_keys. induction d as [|[n x] d IH]; simpl; [reflexivity|].
  intros H. destruct (String.eqb_spec n k) as [->|Hn]; [tauto|].
  rewrite IH; tauto.
Qed.

(** ** The last file that derives a key *)

Lemma last_deriving_app (k : string) (l1 l2 : list string) :
  last_deriving k (l1 ++ l2) =
  match last_deriving k l2 with
  | Some g => Some g
  | None => last_deriving k l1
  end.
Proof.
  induction l1 as [|f l1 IH]; simpl.
  - now destruct (last_deriving k l2).
  - rewrite IH. now destruct (last_deriving k l2).
Qed.

Lemma last_deriving_Some (k : string) (l : list string) (g : string) :
  last_deriving k l = Some g -> In g l /\ response_key g = k.
Proof.
  induction l as [|f l IH]; simpl; [discriminate|].
  destruct (last_deriving k l) as [h|].
  - intros H. injection H as ->. destruct IH; auto.
  - destruct (String.eqb_spec (response_key f) k); [|discriminate].
    intros H. injection H as ->. auto.
Qed.

Lemma last_deriving_None (k : string) (l : list string) :
  last_deriving k l = None <-> forall g, In g l -> response_key g <> k.
Proof.
  induction l as [|f l IH]; simpl.
  - split; [intros _ g [] | reflexivity].
  - destruct (last_deriving k l) as [h|].
    + split; [discriminate|]. intros H.
      assert (Some h = None) as E by (apply IH; auto). discriminate.
    + destruct (String.eqb_spec (response_key f) k) as [E|E].
      * split; [discriminate|]. intros H. destruct (H f); auto.
      * split; [|reflexivity]. intros _ g [<-|Hg]; [assumption|].
        now apply IH.
Qed.

Lemma last_deriving_In (l : list string) (f : string) :
  In f l -> exists g, last_deriving (response_key f) l = Some g.
Proof.
  intros H. destruct (last_deriving (response_key f) l) as [g|] eqn:E; eauto.
  rewrite last_deriving_None in E. now destruct (E f H).
Qed.

Lemma last_deriving_split (k : string) (pre post : list string) (f : string) :
  response_key f = k ->
  (forall g, In g post -> response_key g <> k) ->
  last_deriving k (pre ++ f :: post) = Some f.
Proof.
  intros Hf Hpost. rewrite last_deriving_app. simpl.
  apply last_deriving_None in Hpost. rewrite Hpost.
  destruct (String.eqb_spec (response_key f) k); congruence.
Qed.

(** ** The loop over the response files *)

Section Collected.

Variable json_load : string -> result value.
Variable d : directory.

(** A key of the result holds the contents of the last file deriving it. *)
Lemma collected_get_last (files : list string) (r0 r : dict) (k f : string) :
  collected json_load d files r0 = Ok r ->
  last_deriving k files = Some f ->
  exists v, load_fragment json_load d f = Ok v /\ dict_get r k = Some v.
Proof.
  revert r0. induction files as [|g files IH]; intros r0; [discriminate|].
  cbn [collected last_deriving].
  destruct (load_fragment json_load d g) as [v|] eqn:Eg; [|discriminate].
  intros Hc. destruct (last_deriving k files) as [h|] eqn:El.
  - intros H. injection H as ->. now apply (IH _ Hc).
  - destruct (String.eqb_spec (response_key g) k) as [Ek|]; [|discriminate].
    intros H. injection H as ->. exists v. split; [assumption|].
    clear IH Eg. revert r0 Hc.
    assert (Hn : forall l, (forall x, In x l -> response_key x <> k) ->
              forall r1, collected json_load d l r1 = Ok r ->
                         dict_get r k = dict_get r1 k).
    { induction l as [|x l IHl]; intros Hl r1; cbn [collected].
      - congruence.
      - destruct (load_fragment json_load d x) as [vx|]; [|discriminate].
        intros Hc. rewrite (IHl (fun y Hy => Hl y (or_intror Hy)) _ Hc).
        apply dict_get_set_other. apply Hl. now left. }
    intros r0 Hc. rewrite (Hn files (proj1 (last_deriving_None _ _) El) _ Hc).
    rewrite <- Ek. apply dict_get_set_same.
Qed.

Lemma collected_keys (files : list string) (r0 r : dict) :
  collected json_load d files r0 = Ok r ->
  forall k, In k (dict_keys r) <->
            In k (dict_keys r0) \/ In k (map response_key files).
Proof.
  revert r0. induction files as [|g files IH]; intros r0; cbn [collected].
  - intros H k. injection H as ->. simpl. tauto.
  - destruct (load_fragment json_load d g) as [v|]; [|discriminate].
    intros Hc k. rewrite (IH _ Hc k), In_dict_keys_set. simpl.
    intuition congruence.
Qed.

Lemma collected_NoDup (files : list string) (r0 r : dict) :
  collected json_load d files r0 = Ok r ->
  NoDup (dict_keys r0) -> NoDup (dict_keys r).
Proof.
  revert r0. induction files as [|g files IH]; intros r0; cbn [collected].
  - congruence.
  - destruct (load_fragment json_load d g) as [v|]; [|discriminate].
    intros Hc H0. apply (IH _ Hc). now apply NoDup_dict_keys_set.
Qed.

(** The loop succeeds as soon as every file loads. *)
Lemma collected_total (files : list string) (r0 : dict) :
  (forall f, In f files -> exists v, load_fragment json_load d f = Ok v) ->
  exists r, collected json_load d files r0 = Ok r.
Proof.
  revert r0. induction files as [|g files IH]; intros r0 H; cbn [collected].
  - eauto.
  - destruct (H g (or_introl eq_refl)) as [v ->].
    apply IH. intros f Hf. apply H. now right.
Qed.

(** Without collisions the result lists the files in the order of the
    loop. *)
Lemma collected_distinct (files : list string) (r0 r : dict) :
  collected json_load d files r0 = Ok r ->
  NoDup (dict_keys r0 ++ map response_key files) ->
  r = (r0 ++ map (fun f => (response_key f,
                            match load_fragment json_load d f with
                            | Ok v => v
                            | Raise _ => VNone
                            end)) files)%list.
Proof.
  revert r0. induction files as [|g files IH]; intros r0; cbn [collected].
  - intros H _. injection H as ->. simpl. now rewrite app_nil_r.
  - destruct (load_fragment json_load d g) as [v|] eqn:Eg; [|discriminate].
    intros Hc Hn. simpl in Hn. cbn [map]. rewrite Eg.
    assert (Hg : ~ In (response_key g) (dict_keys r0)).
    { intros Hin. apply NoDup_remove_2 in Hn. apply Hn.
      apply in_or_app. now left. }
    rewrite (dict_set_fresh _ _ _ Hg) in Hc.
    rewrite (IH _ Hc).
    + rewrite <- app_assoc. reflexivity.
    + unfold dict_keys in *. rewrite map_app, <- app_assoc. exact Hn.
Qed.

End Collected.

(** ** The composed object *)

Lemma composed_shape (json_load : string -> result value) (d : directory)
      (schema : value) :
  composed json_load d = Ok schema ->
  exists i e q r,
    schema = schema_of i e q r /\
    load_fragment json_load d "instantiate_msg.json" = Ok i /\
    load_fragment json_load d "execute_msg.json" = Ok e /\
    load_fragment json_load d "query_msg.json" = Ok q /\
    collected json_load d (response_files d) [] = Ok r.
Proof.
  unfold composed.
  destruct (load_fragment json_load d "instantiate_msg.json") as [i|];
    [|discriminate].
  destruct (load_fragment json_load d "execute_msg.json") as [e|];
    [|discriminate].
  destruct (load_fragment json_load d "query_msg.json") as [q|];
    [|discriminate].
  destruct (collected json_load d (response_files d) []) as [r|];
    [|discriminate].
  intros H. injection H as <-. exists i, e, q, r. repeat split.
Qed.

(** The composition succeeds as soon as every fragment loads. *)
Lemma composed_total (json_load : string -> result value) (d : directory) :
  (forall name, In name required \/ In name (response_files d) ->
                exists v, load_fragment json_load d name = Ok v) ->
  exists schema, composed json_load d = Ok schema.
Proof.
  intros H. unfold composed.
  destruct (H "instantiate_msg.json") as [i ->]; [left; simpl; auto|].
  destruct (H "execute_msg.json") as [e ->]; [left; simpl; auto|].
  destruct (H "query_msg.json") as [q ->]; [left; simpl; auto|].
  destruct (collected_total json_load d (response_files d) []) as [r ->];
    eauto.
Qed.

(** ** Subdirectories and the previous output *)

Lemma isfile_subdir (pre post : directory) (sub : string)
      (ch ch' : list (string * node)) (name : string) :
  isfile (pre ++ (sub, Dir ch) :: post)%list name =
  isfile (pre ++ (sub, Dir ch') :: post)%list name.
Proof.
  unfold isfile. induction pre as [|[n x] pre IH]; simpl.
  - now destruct (String.eqb sub name).
  - now destruct (String.eqb n name).
Qed.

(** What a subdirectory holds does not matter to the discovery. *)
Lemma response_files_subdir (pre post : directory) (sub : string)
      (ch ch' : list (string * node)) :
  response_files (pre ++ (sub, Dir ch) :: post)%list =
  response_files (pre ++ (sub, Dir ch') :: post)%list.
Proof.
  unfold response_files, listdir. rewrite !map_app. simpl.
  f_equal. apply filter_ext. intros name. apply isfile_subdir.
Qed.

Section Unchanged.

Variable json_load : string -> result value.

Lemma load_fragment_store_other (d : directory) (name c other : string) :
  other <> name ->
  load_fragment json_load (store d name c) other =
  load_fragment json_load d other.
Proof. intros H. unfold load_fragment. now rewrite read_store_other. Qed.

(** The loop depends on the directory through the files it loads only. *)
Lemma collected_ext (d d' : directory) (files : list string) (r : dict) :
  (forall f, In f files ->
             load_fragment json_load d f = load_fragment json_load d' f) ->
  collected json_load d files r = collected json_load d' files r.
Proof.
  revert r. induction files as [|g files IH]; intros r H; [reflexivity|].
  cbn [collected]. rewrite <- (H g (or_introl eq_refl)).
  destruct (load_fragment json_load d g); [|reflexivity].
  apply IH. intros f Hf. apply H. now right.
Qed.

Lemma composed_ext (d d' : directory) :
  response_files d = response_files d' ->
  (forall name, In name required \/ In name (response_files d) ->
     load_fragment json_load d name = load_fragment json_load d' name) ->
  composed json_load d = composed json_load d'.
Proof.
  intros Hr H. unfold composed.
  rewrite <- (H "instantiate_msg.json") by (left; simpl; auto).
  rewrite <- (H "execute_msg.json") by (left; simpl; auto).
  rewrite <- (H "query_msg.json") by (left; simpl; auto).
  rewrite <- Hr.
  rewrite (collected_ext d d' (response_files d) []) by auto.
  reflexivity.
Qed.

(** A previous output, whatever it holds, does not change the composed
    object. *)
Lemma composed_store_output (d : directory) (c : string) :
  composed json_load (store d output_name c) = composed json_load d.
Proof.
  apply composed_ext.
  - apply response_files_store_output.
  - intros name H. apply load_fragment_store_other.
    destruct H as [H|H].
    + now apply required_not_output.
    + rewrite response_files_store_output in H.
      now apply response_file_not_output in H.
Qed.

Lemma collected_loads (d : directory) (files : list string) (r0 r : dict) :
  collected json_load d files r0 = Ok r ->
  forall f, In f files -> exists v, load_fragment json_load d f = Ok v.
Proof.
  revert r0. induction files as [|g files IH]; intros r0; cbn [collected].
  - intros _ f [].
  - destruct (load_fragment json_load d g) as [v|] eqn:E; [|discriminate].
    intros Hc f [<-|Hf]; [eauto | now apply (IH _ Hc)].
Qed.

End Unchanged.

Lemma map_key_of (files : list string) :
  map key_of files = map Ok (map response_key files).
Proof.
  rewrite map_map. apply map_ext. intros f. apply key_of_response_key.
Qed.

Lemma NoDup_response_keys (files : list string) :
  NoDup (map key_of files) -> NoDup (map response_key files).
Proof. rewrite map_key_of. apply NoDup_map_inv. Qed.

(** ** The sample directory, run *)

Example sample_run_status :
  exit_status (run Lite.load Lite.dump sample_world) = 0%Z.
Proof. reflexivity. Qed.

Example sample_run_composed :
  fst (compose Lite.load sample_world) = Ok sample_schema.
Proof. reflexivity. Qed.

Example sample_run_output :
  read (cwd (final (run Lite.load Lite.dump sample_world))) output_name =
  Ok (String.concat (String "010" "")
        [ "{";
          "  " ++ PyStr.quoted "instantiate" ++ ": {";
          "    " ++ PyStr.quoted "title" ++ ": " ++ PyStr.quoted "InstantiateMsg";
          "  },";
          "  " ++ PyStr.quoted "execute" ++ ": {";
          "    " ++ PyStr.quoted "title" ++ ": " ++ PyStr.quoted "ExecuteMsg";
          "  },";
          "  " ++ PyStr.quoted "query" ++ ": {";
          "    " ++ PyStr.quoted "title" ++ ": " ++ PyStr.quoted "QueryMsg";
          "  },";
          "  " ++ PyStr.quoted "migrate" ++ ": {},";
          "  " ++ PyStr.quoted "sudo" ++ ": {},";
          "  " ++ PyStr.quoted "responses" ++ ": {";
          "    " ++ PyStr.quoted "get_vote" ++ ": {";
          "      " ++ PyStr.quoted "title" ++ ": " ++ PyStr.quoted "VoteResponse";
          "    }";
          "  }";
          "}" ]).
Proof. reflexivity. Qed.

Example split_examples :
  str_split "foo_response.json_response.json" marker = Ok ["foo"; ""; ""] /\
  str_split "get_vote_response.json" marker = Ok ["get_vote"; ""] /\
  str_split "query_msg.json" marker = Ok ["query_msg.json"] /\
  str_split "aaaXaa" "aa" = Ok [""; "aX"; ""].
Proof. repeat split. Qed.

(** ** The claims *)

Section Claims.

Variable json_load : string -> result value.
Variable json_dump : value -> string * option exn.

(** C1. When one of the three mandatory files [instantiate_msg.json],
    [execute_msg.json], [query_msg.json] is absent from the working
    directory, the run ends with a non-zero exit status on an uncaught
    exception, and the directory is left as it was: the output file
    [dao_voting_adapter_full_schema.json] is neither created nor
    overwritten. *)
Theorem missing_mandatory_file_aborts (w : world) (name : string) :
  In name required ->
  lookup (cwd w) name = None ->
  exit_status (run json_load json_dump w) <> 0%Z /\
  uncaught (run json_load json_dump w) <> None /\
  cwd (final (run json_load json_dump w)) = cwd w /\
  lookup (cwd (final (run json_load json_dump w))) output_name = lookup (cwd w) output_name.
Proof.
  intros Hin Hl.
  destruct (composed_fails_on json_load (cwd w) name (or_introl Hin))
    as [y Hy].
  - exists (FileNotFoundError name). unfold load_fragment, read.
    now rewrite Hl.
  - rewrite (run_compose_fails json_load json_dump w y Hy). simpl.
    repeat split; discriminate.
Qed.

(** C5. When a fragment that is read fails to parse, be it one of the three
    mandatory files or a collected response file, the run ends with a
    non-zero exit status and the directory is left as it was: no output
    file, not even a partial one, is written. *)
Theorem malformed_fragment_aborts (w : world) (name c : string) (x : exn) :
  In name required \/ In name (response_files (cwd w)) ->
  read (cwd w) name = Ok c ->
  json_load c = Raise x ->
  exit_status (run json_load json_dump w) <> 0%Z /\
  uncaught (run json_load json_dump w) <> None /\
  cwd (final (run json_load json_dump w)) = cwd w /\
  lookup (cwd (final (run json_load json_dump w))) output_name = lookup (cwd w) output_name.
Proof.
  intros Hin Hr Hx.
  destruct (composed_fails_on json_load (cwd w) name Hin) as [y Hy].
  - exists x. unfold load_fragment. now rewrite Hr.
  - rewrite (run_compose_fails json_load json_dump w y Hy). simpl.
    repeat split; discriminate.
Qed.

(** C2. After a run that ends with status 0, the output file holds the
    serialisation of the composed object, and that object is a mapping with
    exactly the six keys [instantiate], [execute], [query], [migrate],
    [sudo], [responses], the values under [migrate] and [sudo] being the
    empty mapping. *)
Theorem six_top_level_keys (w : world) :
  exit_status (run json_load json_dump w) = 0%Z ->
  exists schema entries,
    fst (compose json_load w) = Ok schema /\
    read (cwd (final (run json_load json_dump w))) output_name =
      Ok (fst (json_dump schema)) /\
    schema = VDict entries /\
    dict_keys entries =
      ["instantiate"; "execute"; "query"; "migrate"; "sudo"; "responses"] /\
    getitem schema "migrate" = Ok (VDict []) /\
    getitem schema "sudo" = Ok (VDict []).
Proof.
  intros H. destruct (run_success json_load json_dump w H)
    as (schema & Hc & _ & _ & Hf).
  rewrite compose_eq, Hf, Hc. cbn [fst cwd]. unfold read.
  rewrite lookup_store_same.
  destruct (composed_shape _ _ _ Hc) as (i & e & q & r & -> & _).
  exists (schema_of i e q r).
  exists [ ("instantiate", i); ("execute", e); ("query", q);
           ("migrate", VDict []); ("sudo", VDict []); ("responses", VDict r) ].
  repeat split; reflexivity.
Qed.

(** C3, amended. After a run that ends with status 0, the value under
    [instantiate] is the parsed contents of [instantiate_msg.json], the
    value under [execute] is the parsed contents of [execute_msg.json] and
    the value under [query] is the parsed contents of [query_msg.json]. *)
Theorem pass_through_fidelity (w : world) :
  exit_status (run json_load json_dump w) = 0%Z ->
  exists schema i e q,
    fst (compose json_load w) = Ok schema /\
    read (cwd (final (run json_load json_dump w))) output_name =
      Ok (fst (json_dump schema)) /\
    load_fragment json_load (cwd w) "instantiate_msg.json" = Ok i /\
    getitem schema "instantiate" = Ok i /\
    load_fragment json_load (cwd w) "execute_msg.json" = Ok e /\
    getitem schema "execute" = Ok e /\
    load_fragment json_load (cwd w) "query_msg.json" = Ok q /\
    getitem schema "query" = Ok q.
Proof.
  intros H. destruct (run_success json_load json_dump w H)
    as (schema & Hc & _ & _ & Hf).
  rewrite compose_eq, Hf, Hc. cbn [fst cwd]. unfold read.
  rewrite lookup_store_same.
  destruct (composed_shape _ _ _ Hc) as (i & e & q & r & -> & Hi & He & Hq & _).
  exists (schema_of i e q r), i, e, q.
  repeat split; assumption || reflexivity.
Qed.

(** C7. The list of response files the script builds holds exactly the
    names of the entries of the working directory that are regular files
    and end with [_response.json]. What a subdirectory contains has no
    influence on it, and the keys of [responses] in the composed object are
    exactly the keys derived from the names of that list. *)
Theorem discovery_selects_response_files (w : world) :
  exists responses,
    discover w = (Ok responses, w) /\
    (forall name,
       In name responses <->
       (exists c, lookup (cwd w) name = Some (File c)) /\
       PyStr.endswith name marker = true) /\
    (forall pre sub children children' post,
       cwd w = (pre ++ (sub, Dir children) :: post)%list ->
       fst (discover (World (pre ++ (sub, Dir children') :: post)%list
                            (stdout w))) = Ok responses) /\
    (forall schema,
       fst (compose json_load w) = Ok schema ->
       exists r,
         getitem schema "responses" = Ok (VDict r) /\
         forall k, In k (dict_keys r) <->
                   exists f, In f responses /\ key_of f = Ok k).
Proof.
  exists (response_files (cwd w)). split; [apply discover_eq|].
  split; [|split].
  - intros name. rewrite In_response_files, In_listdir_lookup.
    unfold isfile. split.
    + intros ([x Hx] & Hf & He). rewrite Hx in Hf.
      destruct x as [c|ch]; [eauto | discriminate].
    + intros ([c Hc] & He). rewrite Hc. eauto.
  - intros pre sub ch ch' post E. rewrite discover_eq. cbn [fst cwd].
    rewrite E. f_equal. apply response_files_subdir.
  - intros schema. rewrite compose_eq. cbn [fst]. intros Hc.
    destruct (composed_shape _ _ _ Hc) as (i & e & q & r & -> & _ & _ & _ & Hr).
    exists r. split; [reflexivity|].
    intros k. rewrite (collected_keys _ _ _ _ _ Hr k), in_map_iff. simpl.
    split.
    + intros [[]|(f & <- & Hf)]. exists f.
      split; [assumption | apply key_of_response_key].
    + intros (f & Hf & Hk). right. exists f.
      rewrite key_of_response_key in Hk. split; congruence.
Qed.

(** C10. The name of the output file does not end with [_response.json].
    Hence it is never in the list of response files, no key of [responses]
    comes from it, and a directory in which a previous output is present,
    whatever it holds, yields the same list and the same composed object
    as the directory without it. *)
Theorem output_never_a_response (w : world) (previous : string) :
  PyStr.endswith output_name marker = false /\
  (exists responses,
     discover w = (Ok responses, w) /\
     ~ In output_name responses /\
     forall schema,
       fst (compose json_load w) = Ok schema ->
       exists r,
         getitem schema "responses" = Ok (VDict r) /\
         forall k, In k (dict_keys r) ->
                   exists f, In f responses /\ f <> output_name /\
                             key_of f = Ok k) /\
  (let w' := World (store (cwd w) output_name previous) (stdout w) in
   fst (discover w') = fst (discover w) /\
   fst (compose json_load w') = fst (compose json_load w)).
Proof.
  split; [reflexivity|]. split.
  - exists (response_files (cwd w)). split; [apply discover_eq|]. split.
    + intros H. now apply response_file_not_output in H.
    + intros schema. rewrite compose_eq. cbn [fst]. intros Hc.
      destruct (composed_shape _ _ _ Hc)
        as (i & e & q & r & -> & _ & _ & _ & Hr).
      exists r. split; [reflexivity|].
      intros k Hk. apply (collected_keys _ _ _ _ _ Hr k) in Hk.
      destruct Hk as [[]|Hk]. apply in_map_iff in Hk.
      destruct Hk as (f & <- & Hf). exists f.
      split; [assumption|]. split.
      * now apply response_file_not_output in Hf.
      * apply key_of_response_key.
  - cbv zeta. rewrite !discover_eq, !compose_eq. cbn [fst cwd].
    now rewrite response_files_store_output, composed_store_output.
Qed.

(** C4, amended. For every collected response file, the key under which
    a fragment is entered in [responses] is the part of the file name
    before the first occurrence of the whole marker [_response.json]: the
    name is that key, the marker and a rest, and no occurrence of the
    marker starts earlier. The key is computed from the name alone. The
    composed object has an entry under that key, and the entry is the
    parsed contents of the file unless a response file processed after it
    derives the same key. The file [get_vote_response.json] yields the key
    [get_vote]. *)
Theorem response_key_derivation (w : world) (schema : value) (file : string) :
  In file (response_files (cwd w)) ->
  fst (compose json_load w) = Ok schema ->
  key_of "get_vote_response.json" = Ok "get_vote" /\
  exists key rest r v,
    key_of file = Ok key /\
    file = key ++ marker ++ rest /\
    (forall p q, file = p ++ marker ++ q ->
                 String.length key <= String.length p) /\
    getitem schema "responses" = Ok (VDict r) /\
    dict_get r key = Some v /\
    (forall pre post,
       response_files (cwd w) = (pre ++ file :: post)%list ->
       (forall g, In g post -> key_of g <> Ok key) ->
       load_fragment json_load (cwd w) file = Ok v).
Proof.
  intros Hin. rewrite compose_eq. cbn [fst]. intros Hc.
  split; [reflexivity|].
  destruct (composed_shape _ _ _ Hc) as (i & e & q & r & -> & _ & _ & _ & Hr).
  destruct (last_deriving_In _ _ Hin) as [g Hg].
  destruct (collected_get_last _ _ _ _ _ _ _ Hr Hg) as (v & Hv & Hget).
  assert (He : exists p, file = p ++ marker).
  { apply endswith_iff. now apply In_response_files in Hin. }
  destruct He as [p0 Hp0].
  assert (Hocc : file = p0 ++ marker ++ "") by now rewrite append_nil_r.
  destruct (before_first_occurrence marker file p0 "" Hocc) as [[rest Hrest] _].
  exists (response_key file), rest, r, v.
  split; [apply key_of_response_key|].
  split; [exact Hrest|].
  split; [intros p t Hpt; now apply (before_first_occurrence marker file p t)|].
  split; [reflexivity|]. split; [exact Hget|].
  intros pre post Hfiles Hpost.
  assert (Hlast : last_deriving (response_key file) (response_files (cwd w)) =
                  Some file).
  { rewrite Hfiles. apply last_deriving_split; [reflexivity|].
    intros h Hh E. apply (Hpost h Hh).
    rewrite key_of_response_key. congruence. }
  rewrite Hlast in Hg. injection Hg as <-. exact Hv.
Qed.

(** C6. When two collected response files derive the same key, as
    [foo_response.json] and [foo_response.json_response.json] both derive
    [foo], and every fragment loads, the composition raises nothing: the
    key occurs once in [responses] and holds the parsed contents of the
    file processed last; the run ends with status 0 when the output can be
    written. *)
Theorem duplicate_key_later_overwrites
        (w : world) (pre mid post : list string) (f1 f2 key : string) :
  response_files (cwd w) = (pre ++ f1 :: mid ++ f2 :: post)%list ->
  key_of f1 = Ok key ->
  key_of f2 = Ok key ->
  (forall g, In g post -> key_of g <> Ok key) ->
  (forall name, In name required \/ In name (response_files (cwd w)) ->
                exists v, load_fragment json_load (cwd w) name = Ok v) ->
  exists schema r v,
    fst (compose json_load w) = Ok schema /\
    getitem schema "responses" = Ok (VDict r) /\
    load_fragment json_load (cwd w) f2 = Ok v /\
    dict_get r key = Some v /\
    NoDup (dict_keys r) /\
    (snd (json_dump schema) = None ->
     (forall ch, lookup (cwd w) output_name <> Some (Dir ch)) ->
     exit_status (run json_load json_dump w) = 0%Z) /\
    key_of "foo_response.json" = Ok "foo" /\
    key_of "foo_response.json_response.json" = Ok "foo".
Proof.
  intros Hfiles _ H2 Hpost Hall.
  destruct (composed_total json_load (cwd w) Hall) as [schema Hc].
  destruct (composed_shape _ _ _ Hc) as (i & e & q & r & -> & _ & _ & _ & Hr).
  rewrite key_of_response_key in H2. injection H2 as H2.
  assert (Hlast : last_deriving key (response_files (cwd w)) = Some f2).
  { rewrite Hfiles.
    change (pre ++ f1 :: mid ++ f2 :: post)%list
      with (pre ++ (f1 :: mid) ++ f2 :: post)%list.
    rewrite app_assoc. apply last_deriving_split; [assumption|].
    intros g Hg E. apply (Hpost g Hg).
    rewrite key_of_response_key. congruence. }
  destruct (collected_get_last _ _ _ _ _ _ _ Hr Hlast) as (v & Hv & Hget).
  exists (schema_of i e q r), r, v.
  rewrite compose_eq. cbn [fst].
  split; [exact Hc|]. split; [reflexivity|].
  split; [exact Hv|]. split; [exact Hget|].
  split; [apply (collected_NoDup _ _ _ _ _ Hr); constructor|].
  split; [|split; reflexivity].
  intros Hd Hl. now apply (run_succeeds json_load json_dump w _ Hc).
Qed.

(** C9, amended. When the working directory contains a regular file named
    exactly [_response.json], the file is collected, the key derived from
    its name is the empty string, and the composed object has an entry
    under the empty key; that entry is the parsed contents of the file
    provided no response file processed after it derives the empty key
    too. *)
Theorem empty_key_response (w : world) (c : string) (schema : value) :
  lookup (cwd w) "_response.json" = Some (File c) ->
  fst (compose json_load w) = Ok schema ->
  In "_response.json" (response_files (cwd w)) /\
  key_of "_response.json" = Ok "" /\
  exists r v,
    getitem schema "responses" = Ok (VDict r) /\
    dict_get r "" = Some v /\
    (forall pre post,
       response_files (cwd w) = (pre ++ "_response.json" :: post)%list ->
       (forall g, In g post -> key_of g <> Ok "") ->
       json_load c = Ok v).
Proof.
  intros Hl. rewrite compose_eq. cbn [fst]. intros Hc.
  assert (Hin : In "_response.json" (response_files (cwd w))).
  { apply In_response_files. split; [|split].
    - apply In_listdir_lookup. eauto.
    - unfold isfile. now rewrite Hl.
    - reflexivity. }
  split; [exact Hin|]. split; [reflexivity|].
  destruct (composed_shape _ _ _ Hc) as (i & e & q & r & -> & _ & _ & _ & Hr).
  destruct (last_deriving_In _ _ Hin) as [g Hg].
  change (response_key "_response.json") with "" in Hg.
  destruct (collected_get_last _ _ _ _ _ _ _ Hr Hg) as (v & Hv & Hget).
  exists r, v. split; [reflexivity|]. split; [exact Hget|].
  intros pre post Hfiles Hpost.
  assert (Hlast : last_deriving "" (response_files (cwd w)) =
                  Some "_response.json").
  { rewrite Hfiles. apply last_deriving_split; [reflexivity|].
    intros h Hh E. apply (Hpost h Hh).
    rewrite key_of_response_key. congruence. }
  rewrite Hlast in Hg. injection Hg as <-.
  unfold load_fragment, read in Hv. now rewrite Hl in Hv.
Qed.

(** C8. The composed object is determined by the fragments that are
    loaded: two directories whose mandatory and response files load alike
    compose the same object when the response files are enumerated in the
    same order, and objects that differ at most in the order of the keys
    of [responses] when the enumerations are permutations of one another
    without key collision. Running the script again on the directory a
    successful run has left succeeds, composes the same object and leaves
    every file, the output included, as it is. *)
Theorem composition_deterministic (w1 w2 : world) :
  (forall name, In name required \/ In name (response_files (cwd w1)) ->
     load_fragment json_load (cwd w1) name =
     load_fragment json_load (cwd w2) name) ->
  (response_files (cwd w1) = response_files (cwd w2) ->
   fst (compose json_load w1) = fst (compose json_load w2)) /\
  (Permutation (response_files (cwd w1)) (response_files (cwd w2)) ->
   NoDup (map key_of (response_files (cwd w1))) ->
   forall s1, fst (compose json_load w1) = Ok s1 ->
   exists s2, fst (compose json_load w2) = Ok s2 /\
              same_up_to_response_order s1 s2) /\
  (exit_status (run json_load json_dump w1) = 0%Z ->
   let w' := final (run json_load json_dump w1) in
   exit_status (run json_load json_dump w') = 0%Z /\
   cwd (final (run json_load json_dump w')) = cwd w' /\
   fst (compose json_load w') = fst (compose json_load w1)).
Proof.
  intros Hload. rewrite !compose_eq. cbn [fst]. split; [|split].
  - intros Hfiles. now apply composed_ext.
  - intros Hperm Hnd s1 Hc.
    destruct (composed_shape _ _ _ Hc)
      as (i & e & q & r1 & -> & Hi & He & Hq & Hr1).
    apply NoDup_response_keys in Hnd.
    assert (Hok : forall f, In f (response_files (cwd w2)) ->
                    exists v, load_fragment json_load (cwd w2) f = Ok v).
    { intros f Hf. apply Permutation_sym in Hperm.
      pose proof (Permutation_in _ Hperm Hf) as Hf1.
      rewrite <- (Hload f (or_intror Hf1)).
      now apply (collected_loads _ _ _ _ _ Hr1). }
    destruct (collected_total json_load (cwd w2) _ [] Hok) as [r2 Hr2].
    exists (schema_of i e q r2). split.
    + unfold composed.
      rewrite <- (Hload "instantiate_msg.json"), Hi by (left; simpl; auto).
      rewrite <- (Hload "execute_msg.json"), He by (left; simpl; auto).
      rewrite <- (Hload "query_msg.json"), Hq by (left; simpl; auto).
      now rewrite Hr2.
    + exists i, e, q, r1, r2. split; [reflexivity|]. split; [reflexivity|].
      rewrite (collected_distinct _ _ _ _ _ Hr1) by exact Hnd.
      rewrite (collected_distinct _ _ _ _ _ Hr2)
        by (simpl; eapply Permutation_NoDup;
            [apply Permutation_map; exact Hperm | exact Hnd]).
      simpl.
      rewrite (map_ext_in _
                 (fun f => (response_key f,
                            match load_fragment json_load (cwd w2) f with
                            | Ok v => v
                            | Raise _ => VNone
                            end)) (response_files (cwd w1))).
      * now apply Permutation_map.
      * intros f Hf. now rewrite (Hload f (or_intror Hf)).
  - intros Hrun. cbv zeta.
    destruct (run_success json_load json_dump w1 Hrun)
      as (schema & Hc & Hd & _ & Hf).
    rewrite Hf. cbn [cwd].
    assert (Hc' : composed json_load
                    (store (cwd w1) output_name (fst (json_dump schema))) =
                  Ok schema) by now rewrite composed_store_output.
    assert (Hrun' : exit_status
                      (run json_load json_dump
                         (World (store (cwd w1) output_name
                                       (fst (json_dump schema)))
                                (stdout (announced w1) ++
                                 [[PStr "DAO Voting Adapter full schema generated."]])%list))
                    = 0%Z).
    { apply (run_succeeds _ _ _ schema); cbn [cwd]; [assumption..|].
      intros ch. rewrite lookup_store_same. discriminate. }
    split; [exact Hrun'|]. split.
    + destruct (run_success _ _ _ Hrun') as (schema' & Hc2 & _ & _ & Hf2).
      cbn [cwd] in Hc2, Hf2. rewrite Hf2. cbn [cwd].
      rewrite Hc' in Hc2. injection Hc2 as <-. apply store_store.
    + rewrite compose_eq. cbn [fst cwd]. apply composed_store_output.
Qed.

End Claims.

(** ** The claims on concrete directories *)

Lemma missing_mandatory_file_aborts_witness :
  In "execute_msg.json" required /\
  lookup (cwd no_execute_world) "execute_msg.json" = None /\
  exit_status (run Lite.load Lite.dump no_execute_world) <> 0%Z /\
  uncaught (run Lite.load Lite.dump no_execute_world) <> None /\
  cwd (final (run Lite.load Lite.dump no_execute_world)) =
    cwd no_execute_world /\
  lookup (cwd (final (run Lite.load Lite.dump no_execute_world))) output_name =
    lookup (cwd no_execute_world) output_name.
Proof.
  split; [simpl; auto|]. split; [reflexivity|].
  apply (missing_mandatory_file_aborts Lite.load Lite.dump no_execute_world
           "execute_msg.json"); [simpl; auto | reflexivity].
Defined.

Lemma malformed_fragment_aborts_witness :
  (In "query_msg.json" required \/
   In "query_msg.json" (response_files (cwd malformed_world))) /\
  read (cwd malformed_world) "query_msg.json" = Ok cut_short /\
  Lite.load cut_short = Raise (JSONDecodeError "Expecting value") /\
  exit_status (run Lite.load Lite.dump malformed_world) <> 0%Z /\
  uncaught (run Lite.load Lite.dump malformed_world) <> None /\
  cwd (final (run Lite.load Lite.dump malformed_world)) =
    cwd malformed_world /\
  lookup (cwd (final (run Lite.load Lite.dump malformed_world))) output_name =
    lookup (cwd malformed_world) output_name.
Proof.
  split; [left; simpl; auto|]. split; [reflexivity|]. split; [reflexivity|].
  apply (malformed_fragment_aborts Lite.load Lite.dump malformed_world
           "query_msg.json" cut_short
           (JSONDecodeError "Expecting value"));
    [left; simpl; auto | reflexivity | reflexivity].
Defined.

Lemma six_top_level_keys_witness :
  exit_status (run Lite.load Lite.dump sample_world) = 0%Z /\
  exists schema entries,
    fst (compose Lite.load sample_world) = Ok schema /\
    read (cwd (final (run Lite.load Lite.dump sample_world))) output_name =
      Ok (fst (Lite.dump schema)) /\
    schema = VDict entries /\
    dict_keys entries =
      ["instantiate"; "execute"; "query"; "migrate"; "sudo"; "responses"] /\
    getitem schema "migrate" = Ok (VDict []) /\
    getitem schema "sudo" = Ok (VDict []).
Proof.
  split; [reflexivity|].
  apply (six_top_level_keys Lite.load Lite.dump sample_world). reflexivity.
Defined.

Lemma pass_through_fidelity_witness :
  exit_status (run Lite.load Lite.dump distinct_world) = 0%Z /\
  exists schema i e q,
    fst (compose Lite.load distinct_world) = Ok schema /\
    read (cwd (final (run Lite.load Lite.dump distinct_world))) output_name =
      Ok (fst (Lite.dump schema)) /\
    load_fragment Lite.load (cwd distinct_world) "instantiate_msg.json" = Ok i /\
    getitem schema "instantiate" = Ok i /\
    load_fragment Lite.load (cwd distinct_world) "execute_msg.json" = Ok e /\
    getitem schema "execute" = Ok e /\
    load_fragment Lite.load (cwd distinct_world) "query_msg.json" = Ok q /\
    getitem schema "query" = Ok q.
Proof.
  split; [reflexivity|].
  apply (pass_through_fidelity Lite.load Lite.dump distinct_world).
  reflexivity.
Defined.

(** In [distinct_world] the run succeeds and the value under [execute] is
    1, the contents of [execute_msg.json], while [query_msg.json] holds 2. *)
Lemma pass_through_as_stated_fails :
  ~ pass_through_as_stated Lite.load Lite.dump distinct_world.
Proof.
  intros H. destruct (H eq_refl) as (schema & Hc & _ & He & _).
  vm_compute in Hc. injection Hc as <-.
  vm_compute in He. discriminate He.
Qed.

Lemma response_key_derivation_witness :
  In "foo_response.json_response.json" (response_files (cwd collision_world)) /\
  fst (compose Lite.load collision_world) = Ok collision_schema /\
  response_files (cwd collision_world) =
    (["foo_response.json"; "bar_response.json"] ++
     "foo_response.json_response.json" :: [])%list /\
  (forall g, In g [] -> key_of g <> Ok "foo") /\
  key_of "get_vote_response.json" = Ok "get_vote" /\
  exists key rest r v,
    key_of "foo_response.json_response.json" = Ok key /\
    "foo_response.json_response.json" = key ++ marker ++ rest /\
    (forall p q, "foo_response.json_response.json" = p ++ marker ++ q ->
                 String.length key <= String.length p) /\
    getitem collision_schema "responses" = Ok (VDict r) /\
    dict_get r key = Some v /\
    load_fragment Lite.load (cwd collision_world)
                  "foo_response.json_response.json" = Ok v.
Proof.
  assert (Hin : In "foo_response.json_response.json"
                   (response_files (cwd collision_world)))
    by (vm_compute; auto).
  destruct (response_key_derivation Lite.load collision_world
              collision_schema "foo_response.json_response.json"
              Hin eq_refl)
    as (Hg & key & rest & r & v & Hk & Hf & Hfirst & Hr & Hget & Hload).
  split; [exact Hin|]. split; [reflexivity|]. split; [reflexivity|].
  split; [intros g []|]. split; [exact Hg|].
  exists key, rest, r, v.
  split; [exact Hk|]. split; [exact Hf|]. split; [exact Hfirst|].
  split; [exact Hr|]. split; [exact Hget|].
  apply (Hload ["foo_response.json"; "bar_response.json"] []);
    [reflexivity | intros g []].
Defined.

(** The file [a_response_b_response.json] is collected under the key
    [a_response_b], while its prefix before the first [_response] is [a];
    the file [foo_response.json_response.json] is collected under the key
    [foo], while its prefix before the last [_response] is
    [foo_response.json]. In [collision_world] the parsed contents of
    [foo_response.json], 1, are not under [foo], which holds 2. *)
Lemma key_derivation_as_stated_fails :
  ~ key_derivation_as_stated before_first /\
  ~ key_derivation_as_stated before_last /\
  ~ contents_under_key_as_stated Lite.load collision_world.
Proof.
  split; [|split]; intros H.
  - specialize (H "a_response_b_response.json" eq_refl).
    vm_compute in H. discriminate H.
  - specialize (H "foo_response.json_response.json" eq_refl).
    vm_compute in H. discriminate H.
  - assert (Hin : In "foo_response.json"
                     (response_files (cwd collision_world)))
      by (vm_compute; auto).
    destruct (H "foo_response.json" collision_schema Hin eq_refl)
      as (r & v & Hr & Hv & Hget).
    vm_compute in Hr. injection Hr as <-.
    vm_compute in Hv. injection Hv as <-.
    vm_compute in Hget. discriminate Hget.
Qed.

Example key_readings :
  key_of "a_response_b_response.json" = Ok "a_response_b" /\
  key_before_marker_as_stated before_first "a_response_b_response.json" = "a" /\
  key_of "foo_response.json_response.json" = Ok "foo" /\
  key_before_marker_as_stated before_last "foo_response.json_response.json" =
    "foo_response.json" /\
  key_before_marker_as_stated before_first "get_vote_response.json" =
    "get_vote" /\
  key_before_marker_as_stated before_last "get_vote_response.json" =
    "get_vote".
Proof. repeat split. Qed.

Lemma duplicate_key_later_overwrites_witness :
  response_files (cwd collision_world) =
    ([] ++ "foo_response.json" ::
           ["bar_response.json"] ++
           "foo_response.json_response.json" :: [])%list /\
  key_of "foo_response.json" = Ok "foo" /\
  key_of "foo_response.json_response.json" = Ok "foo" /\
  (forall g, In g [] -> key_of g <> Ok "foo") /\
  (forall name,
     In name required \/ In name (response_files (cwd collision_world)) ->
     exists v, load_fragment Lite.load (cwd collision_world) name = Ok v) /\
  exists schema r v,
    fst (compose Lite.load collision_world) = Ok schema /\
    getitem schema "responses" = Ok (VDict r) /\
    load_fragment Lite.load (cwd collision_world)
                  "foo_response.json_response.json" = Ok v /\
    dict_get r "foo" = Some v /\
    NoDup (dict_keys r) /\
    (snd (Lite.dump schema) = None ->
     (forall ch, lookup (cwd collision_world) output_name <> Some (Dir ch)) ->
     exit_status (run Lite.load Lite.dump collision_world) = 0%Z) /\
    key_of "foo_response.json" = Ok "foo" /\
    key_of "foo_response.json_response.json" = Ok "foo".
Proof.
  assert (Hall : forall name,
            In name required \/
            In name (response_files (cwd collision_world)) ->
            exists v,
              load_fragment Lite.load (cwd collision_world) name = Ok v).
  { intros name [H|H]; vm_compute in H;
      repeat (destruct H as [<-|H]; [eexists; vm_compute; reflexivity|]);
      destruct H. }
  split; [reflexivity|]. split; [reflexivity|]. split; [reflexivity|].
  split; [intros g []|]. split; [exact Hall|].
  apply (duplicate_key_later_overwrites Lite.load Lite.dump collision_world
           [] ["bar_response.json"] []
           "foo_response.json" "foo_response.json_response.json" "foo");
    [reflexivity | reflexivity | reflexivity | intros g [] | exact Hall].
Defined.

(** In [collision_world] the key [foo] holds 2, the contents of the file
    enumerated last. *)
Example collision_world_composed :
  fst (compose Lite.load collision_world) =
  Ok (schema_of (VDict [("title", VStr "InstantiateMsg")])
                (VDict [("title", VStr "ExecuteMsg")])
                (VDict [("title", VStr "QueryMsg")])
                [("foo", VInt 2); ("bar", VInt 3)]).
Proof. reflexivity. Qed.

Lemma empty_key_response_witness :
  lookup (cwd lone_empty_key_world) "_response.json" = Some (File "1") /\
  fst (compose Lite.load lone_empty_key_world) = Ok lone_empty_key_schema /\
  response_files (cwd lone_empty_key_world) =
    ([] ++ "_response.json" :: [])%list /\
  (forall g, In g [] -> key_of g <> Ok "") /\
  In "_response.json" (response_files (cwd lone_empty_key_world)) /\
  key_of "_response.json" = Ok "" /\
  exists r v,
    getitem lone_empty_key_schema "responses" = Ok (VDict r) /\
    dict_get r "" = Some v /\
    Lite.load "1" = Ok v /\
    v = VInt 1.
Proof.
  destruct (empty_key_response Lite.load lone_empty_key_world "1"
              lone_empty_key_schema eq_refl eq_refl)
    as (Hin & Hk & r & v & Hr & Hget & Hload).
  assert (Hv : Lite.load "1" = Ok v)
    by (apply (Hload [] []); [reflexivity | intros g []]).
  split; [reflexivity|]. split; [reflexivity|]. split; [reflexivity|].
  split; [intros g []|]. split; [exact Hin|]. split; [exact Hk|].
  exists r, v. split; [exact Hr|]. split; [exact Hget|].
  split; [exact Hv|].
  vm_compute in Hv. injection Hv as <-. reflexivity.
Defined.

(** In [empty_key_world] the file [_response.json] holds 1 and the empty
    key holds 2, the contents of [_response.json_response.json], which is
    enumerated after it and derives the empty key as well. *)
Lemma empty_key_as_stated_fails :
  ~ empty_key_as_stated Lite.load empty_key_world.
Proof.
  intros H.
  destruct (H "1" empty_key_schema eq_refl eq_refl)
    as (_ & r & v & Hr & Hv & Hget).
  vm_compute in Hr. injection Hr as <-.
  vm_compute in Hv. injection Hv as <-.
  vm_compute in Hget. discriminate Hget.
Qed.

Lemma composition_deterministic_witness :
  (forall name,
     In name required \/
     In name (response_files (cwd (fst shuffled_worlds))) ->
     load_fragment Lite.load (cwd (fst shuffled_worlds)) name =
     load_fragment Lite.load (cwd (snd shuffled_worlds)) name) /\
  Permutation (response_files (cwd (fst shuffled_worlds)))
              (response_files (cwd (snd shuffled_worlds))) /\
  NoDup (map key_of (response_files (cwd (fst shuffled_worlds)))) /\
  fst (compose Lite.load (fst shuffled_worlds)) = Ok shuffled_schema /\
  exit_status (run Lite.load Lite.dump (fst shuffled_worlds)) = 0%Z /\
  (exists s2, fst (compose Lite.load (snd shuffled_worlds)) = Ok s2 /\
              same_up_to_response_order shuffled_schema s2) /\
  (let w' := final (run Lite.load Lite.dump (fst shuffled_worlds)) in
   exit_status (run Lite.load Lite.dump w') = 0%Z /\
   cwd (final (run Lite.load Lite.dump w')) = cwd w' /\
   fst (compose Lite.load w') = fst (compose Lite.load (fst shuffled_worlds))).
Proof.
  assert (Hload : forall name,
            In name required \/
            In name (response_files (cwd (fst shuffled_worlds))) ->
            load_fragment Lite.load (cwd (fst shuffled_worlds)) name =
            load_fragment Lite.load (cwd (snd shuffled_worlds)) name).
  { intros name [H|H]; vm_compute in H;
      repeat (destruct H as [<-|H]; [vm_compute; reflexivity|]);
      destruct H. }
  assert (Hperm : Permutation
                    (response_files (cwd (fst shuffled_worlds)))
                    (response_files (cwd (snd shuffled_worlds))))
    by (vm_compute; apply perm_swap).
  assert (Hnd : NoDup (map key_of
                         (response_files (cwd (fst shuffled_worlds))))).
  { vm_compute. repeat constructor; simpl; intuition discriminate. }
  destruct (composition_deterministic Lite.load Lite.dump
              (fst shuffled_worlds) (snd shuffled_worlds) Hload)
    as (_ & Hp & Hr).
  split; [exact Hload|]. split; [exact Hperm|]. split; [exact Hnd|].
  split; [reflexivity|]. split; [reflexivity|].
  split; [exact (Hp Hperm Hnd shuffled_schema eq_refl) | exact (Hr eq_refl)].
Defined.

(** The two enumerations of [shuffled_worlds] compose objects that differ
    in the order of the keys of [responses] only. *)
Example shuffled_worlds_composed :
  fst (compose Lite.load (fst shuffled_worlds)) = Ok shuffled_schema /\
  fst (compose Lite.load (snd shuffled_worlds)) =
    Ok (schema_of (VDict [("title", VStr "InstantiateMsg")])
                  (VDict [("title", VStr "ExecuteMsg")])
                  (VDict [("title", VStr "QueryMsg")])
                  [("b", VInt 2); ("a", VInt 1)]).
Proof. split; reflexivity. Qed.

(** ** Further properties of a run *)

Lemma length_append (a b : string) :
  String.length (a ++ b) = String.length a + String.length b.
Proof. induction a as [|x a IH]; simpl; congruence. Qed.

Lemma occurs_iff (sep s : string) :
  occurs sep s = true <-> exists p r, s = p ++ sep ++ r.
Proof.
  induction s as [|c s IH]; cbn [occurs]; rewrite orb_true_iff, prefix_iff.
  - split.
    + intros [[r H]|H]; [exists "", r; exact H | discriminate].
    + intros (p & r & H). left. destruct p; [|discriminate].
      exists r. exact H.
  - rewrite IH. split.
    + intros [[r H]|(p & r & H)].
      * exists "", r. exact H.
      * exists (String c p), r. simpl. congruence.
    + intros (p & r & H). destruct p as [|x p].
      * left. exists r. exact H.
      * right. exists p, r. simpl in H. congruence.
Qed.

Section Order.

Variable json_load : string -> result value.
Variable d : directory.

Lemma first_failure_app (l1 l2 : list string) :
  first_failure json_load d (l1 ++ l2) =
  match first_failure json_load d l1 with
  | Some x => Some x
  | None => first_failure json_load d l2
  end.
Proof.
  induction l1 as [|n l1 IH]; [reflexivity|]. simpl.
  now destruct (load_fragment json_load d n).
Qed.

Lemma collected_first_failure (files : list string) (r : dict) :
  match first_failure json_load d files with
  | Some x => collected json_load d files r = Raise x
  | None => exists r', collected json_load d files r = Ok r'
  end.
Proof.
  revert r. induction files as [|f files IH]; intros r; simpl; [eauto|].
  destruct (load_fragment json_load d f); [apply IH | reflexivity].
Qed.

(** The composition fails with the exception of the first fragment that
    fails to load, the mandatory ones first. *)
Lemma composed_first_failure :
  match first_failure json_load d (required ++ response_files d) with
  | Some x => composed json_load d = Raise x
  | None => exists schema, composed json_load d = Ok schema
  end.
Proof.
  rewrite first_failure_app. unfold composed, required. simpl.
  destruct (load_fragment json_load d "instantiate_msg.json"); [|reflexivity].
  destruct (load_fragment json_load d "execute_msg.json"); [|reflexivity].
  destruct (load_fragment json_load d "query_msg.json"); [|reflexivity].
  pose proof (collected_first_failure (response_files d) []) as H.
  destruct (first_failure json_load d (response_files d)).
  - now rewrite H.
  - destruct H as [r ->]. eauto.
Qed.

Lemma collected_keys_order (files : list string) (r0 r : dict) :
  collected json_load d files r0 = Ok r ->
  dict_keys r =
  fold_left (fun seen k =>
               if existsb (String.eqb k) seen then seen
               else (seen ++ [k])%list)
            (map response_key files) (dict_keys r0).
Proof.
  revert r0. induction files as [|f files IH]; intros r0; cbn [collected].
  - intros H. injection H as ->. reflexivity.
  - destruct (load_fragment json_load d f) as [v|]; [|discriminate].
    intros H. rewrite (IH _ H). simpl. now rewrite dict_keys_set.
Qed.

Lemma collected_length (files : list string) (r0 r : dict) :
  collected json_load d files r0 = Ok r ->
  length r <= length r0 + length files.
Proof.
  revert r0. induction files as [|f files IH]; intros r0; cbn [collected].
  - intros H. injection H as ->. lia.
  - destruct (load_fragment json_load d f) as [v|]; [|discriminate].
    intros H. apply IH in H.
    assert (length (dict_set r0 (response_key f) v) <= S (length r0)).
    { clear. induction r0 as [|[k x] r0 IH]; simpl; [lia|].
      destruct (String.eqb k (response_key f)); simpl; lia. }
    simpl. lia.
Qed.

Lemma collected_app (l1 l2 : list string) (r : dict) :
  collected json_load d (l1 ++ l2) r =
  match collected json_load d l1 r with
  | Ok r' => collected json_load d l2 r'
  | Raise x => Raise x
  end.
Proof.
  revert r. induction l1 as [|f l1 IH]; intros r; [reflexivity|].
  simpl. destruct (load_fragment json_load d f); [apply IH | reflexivity].
Qed.

End Order.

(** The marker has one underscore, at its head: an occurrence that begins
    inside [k] in [k ++ marker] lies within [k]. *)
Lemma marker_overlap (k : string) :
  prefix marker (k ++ marker) = true -> k = "" \/ prefix marker k = true.
Proof.
  unfold marker.
  destruct k as [|c0 k]; [left; reflexivity|].
  intros H. right. revert H.
  do 13 (cbn [prefix append];
         destruct (ascii_dec _ _) as [<-|]; [|discriminate];
         destruct k as [|? k]; [cbn; discriminate|]).
  cbn [prefix append]. destruct (ascii_dec _ _) as [<-|]; [|discriminate].
  intros _. now destruct k.
Qed.

(** A name made of a key without the marker and of the marker derives that
    key. *)
Lemma before_first_marker (k : string) :
  occurs marker k = false -> before_first marker (k ++ marker) = k.
Proof.
  induction k as [|c k IH]; [reflexivity|].
  cbn [occurs]. rewrite orb_false_iff. intros [Hp Ho].
  change (String c k ++ marker) with (String c (k ++ marker)).
  cbn [before_first].
  destruct (prefix marker (String c (k ++ marker))) eqn:E.
  - apply (marker_overlap (String c k)) in E.
    destruct E as [E|E]; [discriminate | congruence].
  - now rewrite IH.
Qed.

Lemma before_first_prefix (sep s : string) :
  exists r, s = before_first sep s ++ r.
Proof.
  induction s as [|c s [r IH]]; [exists ""; reflexivity|].
  cbn [before_first]. destruct (prefix sep (String c s)).
  - eexists. reflexivity.
  - exists r. simpl. congruence.
Qed.

(** The derived key holds no occurrence of the separator. *)
Lemma before_first_clean (sep s : string) :
  sep <> "" -> occurs sep (before_first sep s) = false.
Proof.
  intros Hsep.
  destruct (occurs sep (before_first sep s)) eqn:E; [|reflexivity].
  exfalso. apply occurs_iff in E. destruct E as (p & r & Hk).
  destruct (occurs sep s) eqn:Es.
  - apply occurs_iff in Es. destruct Es as (p0 & r0 & Hs).
    destruct (before_first_occurrence sep s p0 r0 Hs) as [[rest Hrest] _].
    assert (Hs' : s = p ++ sep ++ (r ++ sep ++ rest)).
    { rewrite Hrest at 1. rewrite Hk at 1. now rewrite !append_assoc. }
    apply before_first_occurrence in Hs'. destruct Hs' as [_ Hlen].
    rewrite Hk, !length_append in Hlen.
    destruct sep; [congruence | simpl in Hlen; lia].
  - rewrite before_first_absent in Hk.
    + assert (occurs sep s = true) by (apply occurs_iff; eauto). congruence.
    + intros p0 r0 Hs.
      assert (occurs sep s = true) by (apply occurs_iff; eauto). congruence.
Qed.

(** ** Files beside the fragments *)

Lemma response_files_store_other (d : directory) (name c : string) :
  PyStr.endswith name marker = false ->
  response_files (store d name c) = response_files d.
Proof.
  intros Hn. unfold response_files. rewrite listdir_store.
  assert (Hl : forall l,
    filter (fun f => PyStr.endswith f marker)
           (filter (isfile (store d name c)) l) =
    filter (fun f => PyStr.endswith f marker) (filter (isfile d) l)).
  { induction l as [|x l IH]; simpl; [reflexivity|].
    destruct (String.eqb_spec x name) as [->|Hx].
    - destruct (isfile (store d name c) name), (isfile d name); simpl;
        rewrite ?Hn; exact IH.
    - rewrite isfile_store_other by exact Hx.
      destruct (isfile d x); simpl; [|exact IH].
      destruct (PyStr.endswith x marker); [f_equal|]; exact IH. }
  destruct (lookup d name); [apply Hl|].
  rewrite Hl, !filter_app. simpl.
  destruct (isfile d name); simpl; rewrite ?Hn, ?app_nil_r; reflexivity.
Qed.

Lemma lookup_app_last (d : directory) (name other : string) (x : node) :
  lookup (d ++ [(name, x)])%list other =
  match lookup d other with
  | Some y => Some y
  | None => if String.eqb name other then Some x else None
  end.
Proof.
  induction d as [|[n y] d IH]; simpl; [reflexivity|].
  now destruct (String.eqb n other).
Qed.

(** A new regular file with the marker, enumerated last, is the last
    response file. *)
Lemma response_files_app_last (d : directory) (name c : string) :
  lookup d name = None ->
  PyStr.endswith name marker = true ->
  response_files (d ++ [(name, File c)])%list =
  (response_files d ++ [name])%list.
Proof.
  intros Hl He. unfold response_files, listdir.
  rewrite map_app, !filter_app. simpl.
  unfold isfile at 2. rewrite lookup_app_last, Hl, String.eqb_refl.
  simpl. rewrite He. f_equal. f_equal.
  apply filter_ext_in. intros n Hn. unfold isfile.
  rewrite lookup_app_last.
  apply In_listdir_lookup in Hn. destruct Hn as [y ->]. reflexivity.
Qed.

Lemma no_response_files (d : directory) :
  (forall name c, lookup d name = Some (File c) ->
                  PyStr.endswith name marker = false) ->
  response_files d = [].
Proof.
  intros H. destruct (response_files d) as [|f l] eqn:E; [reflexivity|].
  assert (Hin : In f (response_files d)) by (rewrite E; now left).
  apply In_response_files in Hin. destruct Hin as (_ & Hf & He).
  unfold isfile in Hf. destruct (lookup d f) as [[c|]|] eqn:El;
    try discriminate.
  rewrite (H f c El) in He. discriminate.
Qed.

(** ** Further properties, stated *)

Section More.

Variable json_load : string -> result value.
Variable json_dump : value -> string * option exn.

(** X1. A run ends with status 0 only if the three mandatory files and
    every response file have loaded, the name of the output is not taken by
    a directory, and the composed object was serialised without
    interruption into the output file. *)
Theorem run_success_requires (w : world) :
  exit_status (run json_load json_dump w) = 0%Z ->
  (forall name, In name required \/ In name (response_files (cwd w)) ->
                exists v, load_fragment json_load (cwd w) name = Ok v) /\
  (forall ch, lookup (cwd w) output_name <> Some (Dir ch)) /\
  exists schema,
    fst (compose json_load w) = Ok schema /\
    snd (json_dump schema) = None /\
    read (cwd (final (run json_load json_dump w))) output_name =
      Ok (fst (json_dump schema)).
Proof.
  rewrite compose_eq. cbn [fst].
  intros H. destruct (run_success json_load json_dump w H)
    as (schema & Hc & Hd & Hl & Hf).
  split; [|split; [exact Hl|]].
  - destruct (composed_shape _ _ _ Hc)
      as (i & e & q & r & _ & Hi & He & Hq & Hr).
    intros name [Hn|Hn].
    + unfold required in Hn. simpl in Hn.
      destruct Hn as [<-|[<-|[<-|[]]]]; eauto.
    + now apply (collected_loads _ _ _ _ _ Hr).
  - exists schema. split; [exact Hc|]. split; [exact Hd|].
    rewrite Hf. cbn [cwd]. unfold read. now rewrite lookup_store_same.
Qed.

(** X2. With no regular file ending with the marker in the directory, the
    run succeeds as soon as the three mandatory files load and the output
    can be written, and the composed object has the empty mapping under
    [responses]. *)
Theorem no_response_file_run (w : world) (i e q : value) :
  (forall name c, lookup (cwd w) name = Some (File c) ->
                  PyStr.endswith name marker = false) ->
  load_fragment json_load (cwd w) "instantiate_msg.json" = Ok i ->
  load_fragment json_load (cwd w) "execute_msg.json" = Ok e ->
  load_fragment json_load (cwd w) "query_msg.json" = Ok q ->
  snd (json_dump (schema_of i e q [])) = None ->
  (forall ch, lookup (cwd w) output_name <> Some (Dir ch)) ->
  exit_status (run json_load json_dump w) = 0%Z /\
  fst (compose json_load w) =
    Ok (VDict [ ("instantiate", i); ("execute", e); ("query", q);
                ("migrate", VDict []); ("sudo", VDict []);
                ("responses", VDict []) ]) /\
  read (cwd (final (run json_load json_dump w))) output_name =
    Ok (fst (json_dump (schema_of i e q []))).
Proof.
  intros Hno Hi He Hq Hd Hl.
  assert (Hc : composed json_load (cwd w) = Ok (schema_of i e q [])).
  { unfold composed. now rewrite Hi, He, Hq, (no_response_files _ Hno). }
  assert (Hrun : exit_status (run json_load json_dump w) = 0%Z)
    by now apply (run_succeeds json_load json_dump w _ Hc).
  split; [exact Hrun|]. rewrite compose_eq. cbn [fst].
  split; [exact Hc|].
  destruct (run_success json_load json_dump w Hrun)
    as (schema & Hc' & _ & _ & Hf).
  rewrite Hf. cbn [cwd]. unfold read. rewrite lookup_store_same. congruence.
Qed.

(** X3. The fragments are loaded in the order [instantiate_msg.json],
    [execute_msg.json], [query_msg.json], then the response files as
    enumerated; the exception of the first one that fails to load is the
    one that ends the run, with status 1 and the directory as it was. *)
Theorem first_failure_ends_run (w : world) (x : exn) :
  first_failure json_load (cwd w) (required ++ response_files (cwd w)) =
    Some x ->
  exit_status (run json_load json_dump w) = 1%Z /\
  uncaught (run json_load json_dump w) = Some x /\
  cwd (final (run json_load json_dump w)) = cwd w.
Proof.
  intros H. pose proof (composed_first_failure json_load (cwd w)) as Hc.
  rewrite H in Hc.
  rewrite (run_compose_fails json_load json_dump w x Hc). repeat split.
Qed.

(** X4. When one of the three mandatory names is taken by a directory, the
    run ends with a non-zero status on an uncaught exception and the
    directory is left as it was. *)
Theorem mandatory_directory_aborts
        (w : world) (name : string) (ch : list (string * node)) :
  In name required ->
  lookup (cwd w) name = Some (Dir ch) ->
  exit_status (run json_load json_dump w) <> 0%Z /\
  uncaught (run json_load json_dump w) <> None /\
  cwd (final (run json_load json_dump w)) = cwd w.
Proof.
  intros Hin Hl.
  destruct (composed_fails_on json_load (cwd w) name (or_introl Hin))
    as [y Hy].
  - exists (IsADirectoryError name). unfold load_fragment, read.
    now rewrite Hl.
  - rewrite (run_compose_fails json_load json_dump w y Hy). simpl.
    repeat split; discriminate.
Qed.

(** X5. When the name of the output is taken by a directory, the run ends
    with status 1 and the directory is left as it was; when every fragment
    loaded, the uncaught exception is the [IsADirectoryError] of the
    output. *)
Theorem output_directory_aborts (w : world) (ch : list (string * node)) :
  lookup (cwd w) output_name = Some (Dir ch) ->
  exit_status (run json_load json_dump w) = 1%Z /\
  cwd (final (run json_load json_dump w)) = cwd w /\
  (forall schema,
     fst (compose json_load w) = Ok schema ->
     uncaught (run json_load json_dump w) =
       Some (IsADirectoryError output_name)).
Proof.
  intros Hl. rewrite compose_eq. cbn [fst]. unfold run. rewrite main_eq, Hl.
  destruct (composed json_load (cwd w)) as [schema|x]; cbn.
  - repeat split. 
  - repeat split. intros schema H. discriminate H.
Qed.

(** X6. When the serialisation is interrupted by an exception, the run
    ends with status 1 on that exception, the completion notice is not
    printed, and the output file holds what was written until then: its
    previous contents are lost. *)
Theorem interrupted_dump_leaves_partial_output
        (w : world) (schema : value) (x : exn) :
  fst (compose json_load w) = Ok schema ->
  (forall ch, lookup (cwd w) output_name <> Some (Dir ch)) ->
  snd (json_dump schema) = Some x ->
  exit_status (run json_load json_dump w) = 1%Z /\
  uncaught (run json_load json_dump w) = Some x /\
  read (cwd (final (run json_load json_dump w))) output_name =
    Ok (fst (json_dump schema)) /\
  stdout (final (run json_load json_dump w)) =
    (stdout w ++ [ [PStr "Generating full schema..."];
                   [PStr "Using response files:";
                    PStrList (response_files (cwd w))] ])%list.
Proof.
  rewrite compose_eq. cbn [fst]. intros Hc Hl Hd.
  unfold run. rewrite main_eq, Hc, Hd.
  destruct (lookup (cwd w) output_name) as [[c|ch]|] eqn:El;
    [ | now destruct (Hl ch) | ];
    cbn; unfold read; rewrite lookup_store_same; repeat split.
Qed.

(** X7. Whatever the run does, it leaves every entry of the directory
    other than the output file as it was. *)
Theorem only_output_is_written (w : world) (name : string) :
  name <> output_name ->
  lookup (cwd (final (run json_load json_dump w))) name =
  lookup (cwd w) name.
Proof.
  intros Hn. unfold run. rewrite main_eq.
  destruct (composed json_load (cwd w)) as [schema|x]; [|reflexivity].
  destruct (lookup (cwd w) output_name) as [[c|ch]|];
    try reflexivity;
    destruct (snd (json_dump schema)); cbn;
    now apply lookup_store_other.
Qed.

(** X8. Every run prints the opening line and then the list of the
    response files in enumeration order; the completion notice follows
    exactly when the exit status is 0. *)
Theorem printed_lines (w : world) :
  stdout (final (run json_load json_dump w)) =
  (stdout w ++
   [ [PStr "Generating full schema..."];
     [PStr "Using response files:";
      PStrList (filter (fun f => PyStr.endswith f marker)
                       (filter (isfile (cwd w)) (listdir (cwd w))))] ] ++
   (if Z.eqb (exit_status (run json_load json_dump w)) 0
    then [ [PStr "DAO Voting Adapter full schema generated."] ]
    else []))%list.
Proof.
  unfold run. rewrite main_eq. fold (response_files (cwd w)).
  unfold announced.
  destruct (composed json_load (cwd w)) as [schema|x];
    [destruct (lookup (cwd w) output_name) as [[c|ch]|];
     [destruct (snd (json_dump schema)) | | destruct (snd (json_dump schema))]
    |];
    cbn; rewrite <- ?app_assoc; reflexivity.
Qed.

(** X9. In the composed object the keys of [responses] stand in the order
    in which the response files that first derive them are enumerated, and
    there are at most as many of them as response files. *)
Theorem response_keys_in_enumeration_order (w : world) (schema : value) :
  fst (compose json_load w) = Ok schema ->
  exists r keys,
    getitem schema "responses" = Ok (VDict r) /\
    map key_of (response_files (cwd w)) = map Ok keys /\
    dict_keys r = first_occurrences keys /\
    length r <= length (response_files (cwd w)).
Proof.
  rewrite compose_eq. cbn [fst]. intros Hc.
  destruct (composed_shape _ _ _ Hc) as (i & e & q & r & -> & _ & _ & _ & Hr).
  exists r, (map response_key (response_files (cwd w))).
  split; [reflexivity|]. split; [|split].
  - apply map_key_of.
  - apply (collected_keys_order _ _ _ _ _ Hr).
  - apply (collected_length _ _ _ _ _ Hr).
Qed.

(** X10. A file named by a key that does not contain [_response.json],
    followed by [_response.json], is selected by its name and derives that
    key again. *)
Theorem key_round_trip (k : string) :
  occurs marker k = false ->
  PyStr.endswith (k ++ marker) marker = true /\
  key_of (k ++ marker) = Ok k.
Proof.
  intros H. split.
  - apply endswith_iff. now exists k.
  - rewrite key_of_response_key. unfold response_key.
    now rewrite before_first_marker.
Qed.

(** X11. For every file name the subscript [file.split(marker)[0]] raises
    nothing; the key it gives is a prefix of the name and contains no
    occurrence of the marker; it is the whole name when the name contains
    none, and it is shorter than the name by the length of the marker at
    least when the name ends with it. *)
Theorem key_of_total (file : string) :
  exists key,
    key_of file = Ok key /\
    prefix key file = true /\
    occurs marker key = false /\
    (occurs marker file = false -> key = file) /\
    (PyStr.endswith file marker = true ->
     String.length key + String.length marker <= String.length file).
Proof.
  exists (response_key file). split; [apply key_of_response_key|].
  unfold response_key. split; [|split; [|split]].
  - apply prefix_iff. apply before_first_prefix.
  - apply before_first_clean. discriminate.
  - intros H. apply before_first_absent. intros p r Hs.
    assert (occurs marker file = true) by (apply occurs_iff; eauto).
    congruence.
  - intros H. apply endswith_iff in H. destruct H as [p Hp].
    assert (Hs : file = p ++ marker ++ "") by now rewrite append_nil_r.
    destruct (before_first_occurrence marker file p "" Hs) as [_ Hlen].
    rewrite Hp at 2. rewrite length_append. lia.
Qed.

(** X12. A file whose name is none of the three mandatory names and does
    not end with the marker has no influence on the composed object,
    whether it is created or rewritten. *)
Theorem unrelated_file_ignored (w : world) (name c : string) :
  ~ In name required ->
  PyStr.endswith name marker = false ->
  fst (compose json_load (World (store (cwd w) name c) (stdout w))) =
  fst (compose json_load w).
Proof.
  intros Hr He. rewrite !compose_eq. cbn [fst cwd].
  apply composed_ext.
  - now apply response_files_store_other.
  - intros n Hn. apply load_fragment_store_other. intros ->.
    destruct Hn as [Hn|Hn]; [now apply Hr|].
    apply In_response_files in Hn. destruct Hn as (_ & _ & Hn). congruence.
Qed.

(** X13. A new response file that loads, enumerated after the entries of a
    directory that composes, changes the composed object by the one
    assignment of its contents to its key in [responses]. *)
Theorem response_file_added
        (d : directory) (out : list (list printed)) (name c : string)
        (v schema : value) :
  lookup d name = None ->
  PyStr.endswith name marker = true ->
  json_load c = Ok v ->
  fst (compose json_load (World d out)) = Ok schema ->
  exists i e q r key,
    schema = schema_of i e q r /\
    key_of name = Ok key /\
    fst (compose json_load (World (d ++ [(name, File c)])%list out)) =
      Ok (schema_of i e q (dict_set r key v)).
Proof.
  intros Hl He Hv. rewrite !compose_eq. cbn [fst cwd]. intros Hc.
  destruct (composed_shape _ _ _ Hc)
    as (i & e & q & r & -> & Hi & Hex & Hq & Hr).
  exists i, e, q, r, (response_key name).
  split; [reflexivity|]. split; [apply key_of_response_key|].
  assert (Hold : forall n v0,
             load_fragment json_load d n = Ok v0 ->
             load_fragment json_load (d ++ [(name, File c)])%list n = Ok v0).
  { intros n v0. unfold load_fragment, read. rewrite lookup_app_last.
    destruct (lookup d n) as [[?|?]|]; auto; discriminate. }
  unfold composed.
  rewrite (Hold _ _ Hi), (Hold _ _ Hex), (Hold _ _ Hq).
  rewrite (response_files_app_last d name c Hl He), collected_app.
  rewrite (collected_ext json_load _ d (response_files d) []).
  - rewrite Hr. cbn [collected]. unfold load_fragment at 1, read.
    rewrite lookup_app_last, Hl, String.eqb_refl, Hv. reflexivity.
  - intros f Hf.
    destruct (collected_loads _ _ _ _ _ Hr f Hf) as [v0 Hv0].
    now rewrite (Hold _ _ Hv0).
Qed.

End More.

(** ** The further properties on concrete directories *)

Example first_occurrences_example :
  first_occurrences ["foo"; "bar"; "foo"; "baz"; "bar"] = ["foo"; "bar"; "baz"].
Proof. reflexivity. Qed.

Lemma run_success_requires_witness :
  exit_status (run Lite.load Lite.dump sample_world) = 0%Z /\
  (forall name,
     In name required \/ In name (response_files (cwd sample_world)) ->
     exists v, load_fragment Lite.load (cwd sample_world) name = Ok v) /\
  (forall ch, lookup (cwd sample_world) output_name <> Some (Dir ch)) /\
  exists schema,
    fst (compose Lite.load sample_world) = Ok schema /\
    snd (Lite.dump schema) = None /\
    read (cwd (final (run Lite.load Lite.dump sample_world))) output_name =
      Ok (fst (Lite.dump schema)).
Proof.
  split; [reflexivity|].
  apply (run_success_requires Lite.load Lite.dump sample_world).
  reflexivity.
Defined.

Lemma no_response_file_run_witness :
  (forall name c, lookup (cwd zero_response_world) name = Some (File c) ->
                  PyStr.endswith name marker = false) /\
  load_fragment Lite.load (cwd zero_response_world) "instantiate_msg.json" =
    Ok (VDict [("title", VStr "InstantiateMsg")]) /\
  load_fragment Lite.load (cwd zero_response_world) "execute_msg.json" =
    Ok (VDict [("title", VStr "ExecuteMsg")]) /\
  load_fragment Lite.load (cwd zero_response_world) "query_msg.json" =
    Ok (VDict [("title", VStr "QueryMsg")]) /\
  snd (Lite.dump zero_response_schema) = None /\
  (forall ch, lookup (cwd zero_response_world) output_name <> Some (Dir ch)) /\
  exit_status (run Lite.load Lite.dump zero_response_world) = 0%Z /\
  fst (compose Lite.load zero_response_world) =
    Ok (VDict [ ("instantiate", VDict [("title", VStr "InstantiateMsg")]);
                ("execute", VDict [("title", VStr "ExecuteMsg")]);
                ("query", VDict [("title", VStr "QueryMsg")]);
                ("migrate", VDict []); ("sudo", VDict []);
                ("responses", VDict []) ]) /\
  read (cwd (final (run Lite.load Lite.dump zero_response_world)))
       output_name =
    Ok (fst (Lite.dump zero_response_schema)).
Proof.
  assert (Hno : forall name c,
            lookup (cwd zero_response_world) name = Some (File c) ->
            PyStr.endswith name marker = false).
  { intros name c H.
    assert (Hin : In name (listdir (cwd zero_response_world)))
      by (apply In_listdir_lookup; eauto).
    vm_compute in Hin.
    repeat (destruct Hin as [<-|Hin]; [reflexivity|]). destruct Hin. }
  assert (Hl : forall ch, lookup (cwd zero_response_world) output_name <>
                          Some (Dir ch))
    by (intros ch; vm_compute; discriminate).
  split; [exact Hno|]. split; [reflexivity|]. split; [reflexivity|].
  split; [reflexivity|]. split; [reflexivity|]. split; [exact Hl|].
  apply (no_response_file_run Lite.load Lite.dump zero_response_world
           (VDict [("title", VStr "InstantiateMsg")])
           (VDict [("title", VStr "ExecuteMsg")])
           (VDict [("title", VStr "QueryMsg")]));
    [exact Hno | reflexivity | reflexivity | reflexivity | reflexivity
     | exact Hl].
Defined.

(** The response file that is cut short is enumerated before the mandatory
    files; the run ends on the missing [execute_msg.json] all the same. *)
Lemma first_failure_ends_run_witness :
  first_failure Lite.load (cwd two_failures_world)
    (required ++ response_files (cwd two_failures_world)) =
    Some (FileNotFoundError "execute_msg.json") /\
  exit_status (run Lite.load Lite.dump two_failures_world) = 1%Z /\
  uncaught (run Lite.load Lite.dump two_failures_world) =
    Some (FileNotFoundError "execute_msg.json") /\
  cwd (final (run Lite.load Lite.dump two_failures_world)) =
    cwd two_failures_world.
Proof.
  split; [reflexivity|].
  apply (first_failure_ends_run Lite.load Lite.dump two_failures_world
           (FileNotFoundError "execute_msg.json")).
  reflexivity.
Defined.

Lemma mandatory_directory_aborts_witness :
  In "execute_msg.json" required /\
  lookup (cwd mandatory_is_dir_world) "execute_msg.json" = Some (Dir []) /\
  exit_status (run Lite.load Lite.dump mandatory_is_dir_world) <> 0%Z /\
  uncaught (run Lite.load Lite.dump mandatory_is_dir_world) <> None /\
  cwd (final (run Lite.load Lite.dump mandatory_is_dir_world)) =
    cwd mandatory_is_dir_world.
Proof.
  split; [simpl; auto|]. split; [reflexivity|].
  apply (mandatory_directory_aborts Lite.load Lite.dump
           mandatory_is_dir_world "execute_msg.json" []);
    [simpl; auto | reflexivity].
Defined.

Lemma output_directory_aborts_witness :
  lookup (cwd output_is_dir_world) output_name = Some (Dir []) /\
  exit_status (run Lite.load Lite.dump output_is_dir_world) = 1%Z /\
  cwd (final (run Lite.load Lite.dump output_is_dir_world)) =
    cwd output_is_dir_world /\
  (forall schema,
     fst (compose Lite.load output_is_dir_world) = Ok schema ->
     uncaught (run Lite.load Lite.dump output_is_dir_world) =
       Some (IsADirectoryError output_name)).
Proof.
  split; [reflexivity|].
  apply (output_directory_aborts Lite.load Lite.dump output_is_dir_world []).
  reflexivity.
Defined.

Lemma interrupted_dump_leaves_partial_output_witness :
  fst (compose Lite.load stale_output_world) =
    Ok (schema_of (VDict []) (VDict []) (VDict []) []) /\
  (forall ch, lookup (cwd stale_output_world) output_name <>
              Some (Dir ch)) /\
  snd (interrupted_dump (schema_of (VDict []) (VDict []) (VDict []) [])) =
    Some (OtherError "No space left on device") /\
  exit_status (run Lite.load interrupted_dump stale_output_world) = 1%Z /\
  uncaught (run Lite.load interrupted_dump stale_output_world) =
    Some (OtherError "No space left on device") /\
  read (cwd (final (run Lite.load interrupted_dump stale_output_world)))
       output_name = Ok "{" /\
  stdout (final (run Lite.load interrupted_dump stale_output_world)) =
    (stdout stale_output_world ++
     [ [PStr "Generating full schema..."];
       [PStr "Using response files:";
        PStrList (response_files (cwd stale_output_world))] ])%list.
Proof.
  assert (Hl : forall ch, lookup (cwd stale_output_world) output_name <>
                          Some (Dir ch))
    by (intros ch; vm_compute; discriminate).
  split; [reflexivity|]. split; [exact Hl|]. split; [reflexivity|].
  apply (interrupted_dump_leaves_partial_output Lite.load interrupted_dump
           stale_output_world
           (schema_of (VDict []) (VDict []) (VDict []) [])
           (OtherError "No space left on device"));
    [reflexivity | exact Hl | reflexivity].
Defined.

Lemma only_output_is_written_witness :
  "query_msg.json" <> output_name /\
  lookup (cwd (final (run Lite.load Lite.dump sample_world)))
         "query_msg.json" =
  lookup (cwd sample_world) "query_msg.json".
Proof.
  split; [discriminate|].
  apply (only_output_is_written Lite.load Lite.dump sample_world
           "query_msg.json").
  discriminate.
Defined.

Lemma response_keys_in_enumeration_order_witness :
  fst (compose Lite.load collision_world) = Ok collision_schema /\
  exists r keys,
    getitem collision_schema "responses" = Ok (VDict r) /\
    map key_of (response_files (cwd collision_world)) = map Ok keys /\
    dict_keys r = first_occurrences keys /\
    length r <= length (response_files (cwd collision_world)).
Proof.
  split; [reflexivity|].
  apply (response_keys_in_enumeration_order Lite.load collision_world
           collision_schema).
  reflexivity.
Defined.

Lemma key_round_trip_witness :
  occurs marker "get_vote" = false /\
  PyStr.endswith ("get_vote" ++ marker) marker = true /\
  key_of ("get_vote" ++ marker) = Ok "get_vote".
Proof.
  split; [reflexivity|]. apply (key_round_trip "get_vote"). reflexivity.
Defined.

Lemma unrelated_file_ignored_witness :
  ~ In unrelated_name required /\
  PyStr.endswith unrelated_name marker = false /\
  fst (compose Lite.load
         (World (store (cwd sample_world) unrelated_name "notes")
                (stdout sample_world))) =
  fst (compose Lite.load sample_world).
Proof.
  assert (Hn : ~ In unrelated_name required)
    by (simpl; intuition discriminate).
  split; [exact Hn|]. split; [reflexivity|].
  apply (unrelated_file_ignored Lite.load sample_world unrelated_name "notes");
    [exact Hn | reflexivity].
Defined.

Lemma response_file_added_witness :
  lookup (cwd zero_response_world) "get_vote_response.json" = None /\
  PyStr.endswith "get_vote_response.json" marker = true /\
  Lite.load (titled "VoteResponse") =
    Ok (VDict [("title", VStr "VoteResponse")]) /\
  fst (compose Lite.load (World (cwd zero_response_world) [])) =
    Ok zero_response_schema /\
  exists i e q r key,
    zero_response_schema = schema_of i e q r /\
    key_of "get_vote_response.json" = Ok key /\
    fst (compose Lite.load
           (World (cwd zero_response_world ++
                   [("get_vote_response.json",
                     File (titled "VoteResponse"))])%list [])) =
      Ok (schema_of i e q
            (dict_set r key (VDict [("title", VStr "VoteResponse")]))).
Proof.
  split; [reflexivity|]. split; [reflexivity|]. split; [reflexivity|].
  split; [reflexivity|].
  apply (response_file_added Lite.load (cwd zero_response_world) []
           "get_vote_response.json" (titled "VoteResponse")
           (VDict [("title", VStr "VoteResponse")]) zero_response_schema);
    reflexivity.
Defined.

Section Failure.

Variable json_load : string -> result value.
Variable json_dump : value -> string * option exn.

(** X14. A run that ends with a non-zero status has either left the
    directory as it was, or composed the object and been interrupted while
    serialising it, the output file then holding what was written until
    the exception. *)
Theorem failed_run_effect (w : world) :
  exit_status (run json_load json_dump w) <> 0%Z ->
  cwd (final (run json_load json_dump w)) = cwd w \/
  exists schema x,
    fst (compose json_load w) = Ok schema /\
    snd (json_dump schema) = Some x /\
    uncaught (run json_load json_dump w) = Some x /\
    cwd (final (run json_load json_dump w)) =
      store (cwd w) output_name (fst (json_dump schema)).
Proof.
  rewrite compose_eq. cbn [fst]. unfold run. rewrite main_eq.
  destruct (composed json_load (cwd w)) as [schema|x]; [|now left].
  destruct (lookup (cwd w) output_name) as [[c|ch]|];
    [ | now left | ];
    (destruct (snd (json_dump schema)) as [x|] eqn:Ed; cbn;
     [ intros _; right; exists schema, x; repeat split; exact Ed
     | intros H; now destruct H ]).
Qed.

End Failure.

Lemma failed_run_effect_witness :
  exit_status (run Lite.load interrupted_dump stale_output_world) <> 0%Z /\
  (cwd (final (run Lite.load interrupted_dump stale_output_world)) =
     cwd stale_output_world \/
   exists schema x,
     fst (compose Lite.load stale_output_world) = Ok schema /\
     snd (interrupted_dump schema) = Some x /\
     uncaught (run Lite.load interrupted_dump stale_output_world) = Some x /\
     cwd (final (run Lite.load interrupted_dump stale_output_world)) =
       store (cwd stale_output_world) output_name
             (fst (interrupted_dump schema))).
Proof.
  split; [discriminate|].
  apply (failed_run_effect Lite.load interrupted_dump stale_output_world).
  discriminate.
Defined.
